(** * QuantumSuperPosition-Go: the superposition algebra of pkg/quantum

    A shallow embedding of [pkg/quantum/quantum.go].  Go's [interface{}]
    operands become the inductive type [value]; [float64] is Rocq's primitive
    IEEE 754 binary64 type; a Go [(result, error)] return is a pair whose
    second component is [None] for a nil error. *)

From Stdlib Require Import ZArith List Bool String Ascii Lia.
From Stdlib Require Import Floats.
From Stdlib Require Import Permutation.
Import ListNotations.

Local Open Scope Z_scope.
Local Open Scope list_scope.

(** ** Go's run-time types *)

(** The widths of Go's integer types: [int], [int8], ..., [int64] and
    [uint], [uint8], ..., [uint64]. *)
Inductive IntSize : Type :=
| Size | Size8 | Size16 | Size32 | Size64.

(** The kinds of package [reflect] that matter to [getNumericValue]; every
    other kind falls into the [default] branch there. *)
Module reflect.

Inductive Kind : Type :=
| Invalid
| Bool
| Int | Int8 | Int16 | Int32 | Int64
| Uint | Uint8 | Uint16 | Uint32 | Uint64
| Float32 | Float64
| Pointer
| Slice
| String.

Definition Kind_eqb (k1 k2 : Kind) : bool :=
  match k1, k2 with
  | Invalid, Invalid | Bool, Bool
  | Int, Int | Int8, Int8 | Int16, Int16 | Int32, Int32 | Int64, Int64
  | Uint, Uint | Uint8, Uint8 | Uint16, Uint16 | Uint32, Uint32
  | Uint64, Uint64
  | Float32, Float32 | Float64, Float64
  | Pointer, Pointer | Slice, Slice | String, String => true
  | _, _ => false
  end.

Definition IntKind (w : IntSize) : Kind :=
  match w with
  | Size => Int | Size8 => Int8 | Size16 => Int16 | Size32 => Int32
  | Size64 => Int64
  end.

Definition UintKind (w : IntSize) : Kind :=
  match w with
  | Size => Uint | Size8 => Uint8 | Size16 => Uint16 | Size32 => Uint32
  | Size64 => Uint64
  end.

End reflect.

(** [SuperpositionType]: [Disjunctive] (any) is iota 0, [Conjunctive] (all)
    is 1. *)
Inductive SuperpositionType : Type :=
| Disjunctive
| Conjunctive.

Definition SuperpositionType_eqb (s t : SuperpositionType) : bool :=
  match s, t with
  | Disjunctive, Disjunctive | Conjunctive, Conjunctive => true
  | _, _ => false
  end.

(** A dynamically typed Go value ([interface{}]) together with the
    [Superposition] struct, which holds a slice of such values.  Integers
    carry the width of their static type; [OfSuperposition] is a non-nil
    [*Superposition]. *)
#[warnings="-register-all"]
Inductive value : Type :=
| Nil
| OfBool (b : bool)
| OfInt (w : IntSize) (n : Z)
| OfUint (w : IntSize) (n : Z)
| OfFloat32 (f : float)
| OfFloat64 (f : float)
| OfString (s : string)
| OfSlice (elems : list value)
| OfSuperposition (s : Superposition)
with Superposition : Type :=
| mkSuperposition (values : list value) (typ : SuperpositionType).

Definition values (s : Superposition) : list value :=
  match s with mkSuperposition vs _ => vs end.

Definition typ (s : Superposition) : SuperpositionType :=
  match s with mkSuperposition _ t => t end.

(** Go's [error]: [None] is the nil error. *)
Definition error : Type := option string.

Definition errors_New (msg : string) : error := Some msg.

Definition rune : Type := ascii.

(** ** float64 *)

(** The conversion [float64(n)] of an integer: round to nearest, ties to
    even. *)
Definition float64_of_Z (n : Z) : float :=
  SF2Prim (binary_normalize prec emax n 0 false).

(** [math.Mod(x, y)]: the floating-point remainder of x/y, computed exactly,
    with the sign of [x]; NaN when [x] is infinite or NaN, or [y] is zero or
    NaN; [x] itself when [y] is infinite. *)
Definition math_Mod (x y : float) : float :=
  match Prim2SF x, Prim2SF y with
  | S754_nan, _ | _, S754_nan => nan
  | S754_infinity _, _ => nan
  | _, S754_zero _ => nan
  | _, S754_infinity _ => x
  | S754_zero _, _ => x
  | S754_finite sx mx ex, S754_finite _ my ey =>
      let e := Z.min ex ey in
      let r := Z.rem (Zpos mx * 2 ^ (ex - e)) (Zpos my * 2 ^ (ey - e)) in
      SF2Prim (binary_normalize prec emax (if sx then - r else r) e sx)
  end.

(** ** Reflection on values *)

Definition reflect_KindOf (val : value) : reflect.Kind :=
  match val with
  | Nil => reflect.Invalid
  | OfBool _ => reflect.Bool
  | OfInt w _ => reflect.IntKind w
  | OfUint w _ => reflect.UintKind w
  | OfFloat32 _ => reflect.Float32
  | OfFloat64 _ => reflect.Float64
  | OfString _ => reflect.String
  | OfSlice _ => reflect.Slice
  | OfSuperposition _ => reflect.Pointer
  end.

(** [v.Int()], [v.Uint()] and [v.Float()]; each is only called on a value
    of the matching kind. *)
Definition reflect_Int (val : value) : Z :=
  match val with OfInt _ n => n | _ => 0 end.

Definition reflect_Uint (val : value) : Z :=
  match val with OfUint _ n => n | _ => 0 end.

Definition reflect_Float (val : value) : float :=
  match val with OfFloat32 f | OfFloat64 f => f | _ => 0%float end.

(** getNumericValue converts an interface{} to a float64 for arithmetic
    operations. *)
Definition getNumericValue (val : value) : float * reflect.Kind :=
  match reflect_KindOf val with
  | reflect.Int | reflect.Int8 | reflect.Int16 | reflect.Int32
  | reflect.Int64 =>
      (float64_of_Z (reflect_Int val), reflect_KindOf val)
  | reflect.Uint | reflect.Uint8 | reflect.Uint16 | reflect.Uint32
  | reflect.Uint64 =>
      (float64_of_Z (reflect_Uint val), reflect_KindOf val)
  | reflect.Float32 | reflect.Float64 =>
      (reflect_Float val, reflect_KindOf val)
  | _ => (0%float, reflect.Invalid)
  end.

(** ** Per-pair operations *)

(** performArithmetic performs arithmetic operations between two values. *)
Definition performArithmetic (a b : value) (op : rune) : value * error :=
  let '(aVal, aKind) := getNumericValue a in
  let '(bVal, bKind) := getNumericValue b in
  if reflect.Kind_eqb aKind reflect.Invalid
     || reflect.Kind_eqb bKind reflect.Invalid
  then (Nil, errors_New "unsupported type in arithmetic operation")
  else
    match op with
    | "+"%char => (OfFloat64 (aVal + bVal)%float, None)
    | "-"%char => (OfFloat64 (aVal - bVal)%float, None)
    | "*"%char => (OfFloat64 (aVal * bVal)%float, None)
    | "/"%char =>
        if (bVal =? 0)%float then (Nil, errors_New "division by zero")
        else (OfFloat64 (aVal / bVal)%float, None)
    | "%"%char =>
        if (bVal =? 0)%float then (Nil, errors_New "modulo by zero")
        else (OfFloat64 (math_Mod aVal bVal), None)
    | _ => (Nil, errors_New "unsupported operation")
    end.

(** performComparison performs comparison operations between two values. *)
Definition performComparison (a b : value) (op : rune) : bool * error :=
  let '(aVal, aKind) := getNumericValue a in
  let '(bVal, bKind) := getNumericValue b in
  if reflect.Kind_eqb aKind reflect.Invalid
     || reflect.Kind_eqb bKind reflect.Invalid
  then (false, errors_New "unsupported type in comparison")
  else
    match op with
    | "<"%char => ((aVal <? bVal)%float, None)
    | ">"%char => ((bVal <? aVal)%float, None)
    | "="%char => ((aVal =? bVal)%float, None)
    | _ => (false, errors_New "unsupported comparison")
    end.

Definition addValues (a b : value) := performArithmetic a b "+"%char.
Definition subValues (a b : value) := performArithmetic a b "-"%char.
Definition mulValues (a b : value) := performArithmetic a b "*"%char.
Definition divValues (a b : value) := performArithmetic a b "/"%char.
Definition modValues (a b : value) := performArithmetic a b "%"%char.

Definition lessThanValues (a b : value) := performComparison a b "<"%char.
Definition greaterThanValues (a b : value) := performComparison a b ">"%char.
Definition equalToValues (a b : value) := performComparison a b "="%char.

(** ** The engines *)

(** extractValues extracts values and type from an operand, which can be a
    scalar or a superposition. *)
Definition extractValues (val : value) : list value * SuperpositionType :=
  match val with
  | OfSuperposition s => (values s, typ s)
  | _ => ([val], Disjunctive)
  end.

(** The inner loop of [combineValues]: one pass over [bValues] for a fixed
    [av], appending to [resultValues]; a failed pair is skipped by
    [continue]. *)
Fixpoint combineInner (op : value -> value -> value * error) (av : value)
    (bValues : list value) (resultValues : list value) : list value :=
  match bValues with
  | [] => resultValues
  | bv :: rest =>
      match op av bv with
      | (_, Some _) => combineInner op av rest resultValues
      | (res, None) => combineInner op av rest (resultValues ++ [res])
      end
  end.

(** The outer loop of [combineValues]. *)
Fixpoint combineOuter (op : value -> value -> value * error)
    (aValues bValues : list value) (resultValues : list value) : list value :=
  match aValues with
  | [] => resultValues
  | av :: rest =>
      combineOuter op rest bValues (combineInner op av bValues resultValues)
  end.

(** combineValues combines two operands using the provided operation
    function. *)
Definition combineValues (a b : value)
    (op : value -> value -> value * error) : list value * SuperpositionType :=
  let '(aValues, aTyp) := extractValues a in
  let '(bValues, bTyp) := extractValues b in
  let resultValues := combineOuter op aValues bValues [] in
  let resultTyp :=
    if SuperpositionType_eqb aTyp Conjunctive
       || SuperpositionType_eqb bTyp Conjunctive
    then Conjunctive else Disjunctive in
  (resultValues, resultTyp).

(** The inner loop of [compareValues] for a fixed [av]: it returns the
    value of [match] when the loop is left, by exhaustion or by [break]. *)
Fixpoint compareInner (comp : value -> value -> bool * error)
    (bTyp : SuperpositionType) (av : value) (bValues : list value)
    (match_ : bool) : bool :=
  match bValues with
  | [] => match_
  | bv :: rest =>
      match comp av bv with
      | (_, Some _) => compareInner comp bTyp av rest match_
      | (true, None) => true
      | (false, None) =>
          if SuperpositionType_eqb bTyp Conjunctive then false
          else compareInner comp bTyp av rest match_
      end
  end.

(** The outer loop of [compareValues]. *)
Fixpoint compareOuter (comp : value -> value -> bool * error)
    (bTyp : SuperpositionType) (aValues bValues : list value)
    (resultValues : list value) : list value :=
  match aValues with
  | [] => resultValues
  | av :: rest =>
      let match_ := compareInner comp bTyp av bValues false in
      compareOuter comp bTyp rest bValues
        (if match_ then resultValues ++ [av] else resultValues)
  end.

(** compareValues compares two operands using the provided comparison
    function. *)
Definition compareValues (a b : value)
    (comp : value -> value -> bool * error) : list value * SuperpositionType :=
  let '(aValues, aTyp) := extractValues a in
  let '(bValues, bTyp) := extractValues b in
  let resultValues := compareOuter comp bTyp aValues bValues [] in
  let resultTyp := aTyp in
  (resultValues, resultTyp).

(** ** The public API *)

(** Any creates a disjunctive superposition of the provided values. *)
Definition Any (vs : list value) : Superposition :=
  mkSuperposition vs Disjunctive.

(** All creates a conjunctive superposition of the provided values. *)
Definition All (vs : list value) : Superposition :=
  mkSuperposition vs Conjunctive.

Definition ofPair (r : list value * SuperpositionType) : Superposition :=
  let '(resultValues, resultTyp) := r in
  mkSuperposition resultValues resultTyp.

Definition Add (a b : value) : Superposition :=
  ofPair (combineValues a b addValues).

Definition Subtract (a b : value) : Superposition :=
  ofPair (combineValues a b subValues).

Definition Multiply (a b : value) : Superposition :=
  ofPair (combineValues a b mulValues).

Definition Divide (a b : value) : Superposition :=
  ofPair (combineValues a b divValues).

Definition Modulo (a b : value) : Superposition :=
  ofPair (combineValues a b modValues).

Definition LessThan (a b : value) : Superposition :=
  ofPair (compareValues a b lessThanValues).

Definition GreaterThan (a b : value) : Superposition :=
  ofPair (compareValues a b greaterThanValues).

Definition EqualTo (a b : value) : Superposition :=
  ofPair (compareValues a b equalToValues).

(** IsTrue evaluates the truth value of the superposition. *)
Definition IsTrue (s : Superposition) : bool :=
  if (Z.of_nat (List.length (values s)) =? 0)%Z then false else true.

(** Eigenstates returns the eigenstates (possible values) of the
    superposition. *)
Definition Eigenstates (s : Superposition) : list value := values s.

(** Literals: an untyped integer constant passed as [interface{}] is an
    [int]. *)
Definition int (n : Z) : value := OfInt Size n.

Definition ints (ns : list Z) : list value := map int ns.

Definition sp (s : Superposition) : value := OfSuperposition s.


(** ** The primality example of the README

    [isPrime] builds its divisors by repeated [Add] into [All()], then
    tests [Modulo(n, divisors)]. *)

(** The conversion [int(f)] of a finite float: truncation toward zero. *)
Definition int_of_float64 (f : float) : Z :=
  match Prim2SF f with
  | S754_finite s m e =>
      let t := if 0 <=? e then Zpos m * 2 ^ e else Zpos m / 2 ^ (- e) in
      if s then - t else t
  | _ => 0
  end.

(** The values [lo, lo+1, ..., hi] taken by a loop counter. *)
Definition counter (lo hi : Z) : list Z :=
  map (fun k => lo + Z.of_nat k) (seq 0 (Z.to_nat (hi - lo + 1))).

(** The accumulation loop: [divisors = quantum.Add(divisors, i)] for each
    [i] in turn. *)
Definition accumulate (divisors : Superposition) (xs : list value)
    : Superposition :=
  fold_left (fun divisors i => Add (sp divisors) i) xs divisors.

Definition isPrime (n : Z) : bool :=
  if n <=? 1 then false
  else
    let divisors :=
      accumulate (All [])
        (ints (counter 2 (int_of_float64 (sqrt (float64_of_Z n))))) in
    let modResults := Modulo (int n) (sp divisors) in
    negb (IsTrue modResults).

(** ** Vocabulary of the specification *)

(** The five arithmetic operations and the three filtering operations. *)
Inductive Arithmetic : Type :=
| OpAdd | OpSubtract | OpMultiply | OpDivide | OpModulo.

Inductive Filtering : Type :=
| OpLessThan | OpGreaterThan | OpEqualTo.

Definition arithmetic (o : Arithmetic) : value -> value -> Superposition :=
  match o with
  | OpAdd => Add
  | OpSubtract => Subtract
  | OpMultiply => Multiply
  | OpDivide => Divide
  | OpModulo => Modulo
  end.

Definition arithmeticValues (o : Arithmetic)
    : value -> value -> value * error :=
  match o with
  | OpAdd => addValues
  | OpSubtract => subValues
  | OpMultiply => mulValues
  | OpDivide => divValues
  | OpModulo => modValues
  end.

Definition filtering (o : Filtering) : value -> value -> Superposition :=
  match o with
  | OpLessThan => LessThan
  | OpGreaterThan => GreaterThan
  | OpEqualTo => EqualTo
  end.

Definition filteringValues (o : Filtering)
    : value -> value -> bool * error :=
  match o with
  | OpLessThan => lessThanValues
  | OpGreaterThan => greaterThanValues
  | OpEqualTo => equalToValues
  end.

(** The value sequence and the mode of an operand. *)
Definition operandValues (x : value) : list value := fst (extractValues x).

Definition operandMode (x : value) : SuperpositionType :=
  snd (extractValues x).

(** A bare scalar is any operand that is not a [*Superposition]. *)
Definition isScalar (x : value) : bool :=
  match x with OfSuperposition _ => false | _ => true end.

(** The successful result of one pair, if any. *)
Definition successful (op : value -> value -> value * error)
    (p : value * value) : list value :=
  match op (fst p) (snd p) with
  | (res, None) => [res]
  | (_, Some _) => []
  end.

(** The per-pair results of the cross product, a-major and b-minor. *)
Definition crossResults (op : value -> value -> value * error)
    (A B : list value) : list value :=
  flat_map (successful op) (list_prod A B).

(** Numeric coercion succeeds on [v]. *)
Definition coerces (v : value) : bool :=
  negb (reflect.Kind_eqb (snd (getNumericValue v)) reflect.Invalid).

(** The number [v] coerces to. *)
Definition coerced (v : value) : float := fst (getNumericValue v).

(** The operator is division or modulo and the divisor coerces to zero. *)
Definition zeroDivisor (o : Arithmetic) (b : value) : bool :=
  match o with
  | OpDivide | OpModulo => (coerced b =? 0)%float
  | _ => false
  end.

Definition excluded (o : Arithmetic) (a b : value) : bool :=
  negb (coerces a) || negb (coerces b) || zeroDivisor o b.

(** The verdict of one comparison: [Some r] when both values coerce. *)
Definition verdict (comp : value -> value -> bool * error) (a b : value)
    : option bool :=
  match comp a b with
  | (r, None) => Some r
  | (_, Some _) => None
  end.

(** The predicate holds for the pair. *)
Definition holds (comp : value -> value -> bool * error) (a b : value)
    : bool :=
  match verdict comp a b with
  | Some true => true
  | _ => false
  end.

(** The first verdict that [a] gets from the values of [B], in order. *)
Fixpoint firstVerdict (comp : value -> value -> bool * error) (a : value)
    (B : list value) : option bool :=
  match B with
  | [] => None
  | b :: rest =>
      match verdict comp a b with
      | Some r => Some r
      | None => firstVerdict comp a rest
      end
  end.

(** Numeric equality of two values: both coerce, to equal numbers. *)
Definition numericallyEqual (a b : value) : bool :=
  coerces a && coerces b && (coerced a =? coerced b)%float.

Definition isFloat64 (v : value) : Prop := exists f, v = OfFloat64 f.

(** Integers below 2^53 in magnitude, which float64 represents exactly. *)
Definition exactInt (n : Z) : Prop := Z.abs n < 2 ^ 53.

(** The binary64 representation of such an integer: its bits shifted left
    into a 53-bit mantissa, and the exponent that undoes the shift. *)
Definition exactExponent (p : positive) : Z := Zpos (digits2_pos p) - 53.

Definition exactMantissa (p : positive) : positive :=
  match exactExponent p with
  | Zneg k => Pos.iter xO p k
  | _ => p
  end.

Definition exactFloat (n : Z) : spec_float :=
  match n with
  | Z0 => S754_zero false
  | Zpos p => S754_finite false (exactMantissa p) (exactExponent p)
  | Zneg p => S754_finite true (exactMantissa p) (exactExponent p)
  end.

(** ** Operands that may be a nil pointer

    An operand of type [interface{}] can also hold a typed nil
    [*Superposition].  The type assertion in [extractValues] then succeeds
    with a nil [s], and [s.values] dereferences it: a run-time panic, which
    [None] stands for here.  The loops are those of [combineValues]. *)
Module Nilable.

Inductive operand : Type :=
| NilSuperposition
| Val (v : value).

(** extractValues extracts values and type from an operand, which can be a
    scalar or a superposition. *)
Definition extractValues (val : operand)
    : option (list value * SuperpositionType) :=
  match val with
  | NilSuperposition => None
  | Val (OfSuperposition s) => Some (values s, typ s)
  | Val v => Some ([v], Disjunctive)
  end.

(** combineValues combines two operands using the provided operation
    function. *)
Definition combineValues (a b : operand)
    (op : value -> value -> value * error)
    : option (list value * SuperpositionType) :=
  match extractValues a with
  | None => None
  | Some (aValues, aTyp) =>
      match extractValues b with
      | None => None
      | Some (bValues, bTyp) =>
          let resultValues := combineOuter op aValues bValues [] in
          let resultTyp :=
            if SuperpositionType_eqb aTyp Conjunctive
               || SuperpositionType_eqb bTyp Conjunctive
            then Conjunctive else Disjunctive in
          Some (resultValues, resultTyp)
      end
  end.

Definition Add (a b : operand) : option Superposition :=
  option_map ofPair (combineValues a b addValues).

Definition Subtract (a b : operand) : option Superposition :=
  option_map ofPair (combineValues a b subValues).

Definition Multiply (a b : operand) : option Superposition :=
  option_map ofPair (combineValues a b mulValues).

Definition Divide (a b : operand) : option Superposition :=
  option_map ofPair (combineValues a b divValues).

Definition Modulo (a b : operand) : option Superposition :=
  option_map ofPair (combineValues a b modValues).

Definition arithmetic (o : Arithmetic)
    : operand -> operand -> option Superposition :=
  match o with
  | OpAdd => Add
  | OpSubtract => Subtract
  | OpMultiply => Multiply
  | OpDivide => Divide
  | OpModulo => Modulo
  end.

End Nilable.

(** ** Display and sampling *)

(** String returns a string representation of the SuperpositionType.  The
    [default] branch ("unknown") is for integers other than the two
    constants, which [SuperpositionType] here does not have. *)
Definition SuperpositionType_String (st : SuperpositionType) : string :=
  match st with
  | Disjunctive => "any"
  | Conjunctive => "all"
  end.

(** The indexing [vs[i]] of a slice; [None] is the run-time panic of an
    index out of range. *)
Definition index (vs : list value) (i : Z) : option value :=
  if (0 <=? i) && (i <? Z.of_nat (List.length vs))
  then nth_error vs (Z.to_nat i)
  else None.

(** What [fmt] prints for a slice under [%v]: the elements under [%v],
    separated by spaces, in square brackets.  [Sprint] is [fmt]'s rendering
    of one value under [%v]. *)
Definition Sprint_slice (Sprint : value -> string) (vs : list value)
    : string :=
  ("[" ++ String.concat " " (map Sprint vs) ++ "]")%string.

(** String returns a string representation of the superposition. *)
Definition Superposition_String (Sprint : value -> string)
    (s : Superposition) : option string :=
  if Z.of_nat (List.length (values s)) =? 1
  then option_map Sprint (index (values s) 0)
  else Some (SuperpositionType_String (typ s) ++ "("
             ++ Sprint_slice Sprint (values s) ++ ")")%string.

(** RandomValue returns a random eigenstate from the superposition.
    [Intn] is the generator's [rand.Intn], which for n > 0 returns a number
    in [0, n). *)
Definition RandomValue (Intn : Z -> Z) (s : Superposition) : option value :=
  if Z.of_nat (List.length (values s)) =? 0 then Some Nil
  else index (values s) (Intn (Z.of_nat (List.length (values s)))).

(** ** Further vocabulary *)

(** [l1] is [l2] with some elements left out, the others in their order. *)
Inductive subsequence {A : Type} : list A -> list A -> Prop :=
| subsequence_nil : subsequence [] []
| subsequence_skip (x : A) (l1 l2 : list A) :
    subsequence l1 l2 -> subsequence l1 (x :: l2)
| subsequence_keep (x : A) (l1 l2 : list A) :
    subsequence l1 l2 -> subsequence (x :: l1) (x :: l2).

(** The values of a list that coerce to a number. *)
Definition coercible (vs : list value) : list value := filter coerces vs.

(** Addition, subtraction and multiplication have no domain restriction:
    only coercion can exclude a pair. *)
Definition unrestricted (o : Arithmetic) : bool :=
  match o with
  | OpAdd | OpSubtract | OpMultiply => true
  | OpDivide | OpModulo => false
  end.

(** Addition and multiplication, the operations whose per-pair result does
    not depend on the order of the pair. *)
Definition commutative (o : Arithmetic) : bool :=
  match o with
  | OpAdd | OpMultiply => true
  | OpSubtract | OpDivide | OpModulo => false
  end.

(** The relation on integers that a filtering operation stands for. *)
Definition integerRelation (o : Filtering) (a b : Z) : bool :=
  match o with
  | OpLessThan => a <? b
  | OpGreaterThan => b <? a
  | OpEqualTo => a =? b
  end.

(** * Properties *)

(** ** The loops *)

Section Combine.

Variable op : value -> value -> value * error.

Lemma combineInner_spec (av : value) (bValues acc : list value) :
  combineInner op av bValues acc
  = acc ++ flat_map (fun bv => successful op (av, bv)) bValues.
Proof.
  revert acc.
  induction bValues as [|bv rest IH]; intros acc; simpl.
  - now rewrite app_nil_r.
  - unfold successful at 1; simpl.
    destruct (op av bv) as [res [msg|]]; rewrite IH; simpl.
    + reflexivity.
    + now rewrite <- app_assoc.
Qed.

Lemma flat_map_pairs (av : value) (bValues : list value) :
  flat_map (successful op) (map (fun bv => (av, bv)) bValues)
  = flat_map (fun bv => successful op (av, bv)) bValues.
Proof.
  induction bValues as [|bv rest IH]; simpl; [reflexivity|].
  now rewrite IH.
Qed.

Lemma combineOuter_spec (aValues bValues acc : list value) :
  combineOuter op aValues bValues acc = acc ++ crossResults op aValues bValues.
Proof.
  unfold crossResults.
  revert acc.
  induction aValues as [|av rest IH]; intros acc; simpl.
  - now rewrite app_nil_r.
  - rewrite IH, combineInner_spec, flat_map_app, flat_map_pairs.
    now rewrite <- app_assoc.
Qed.

Lemma combineValues_spec (a b : value) :
  combineValues a b op
  = (crossResults op (operandValues a) (operandValues b),
     if SuperpositionType_eqb (operandMode a) Conjunctive
        || SuperpositionType_eqb (operandMode b) Conjunctive
     then Conjunctive else Disjunctive).
Proof.
  unfold combineValues, operandValues, operandMode.
  destruct (extractValues a) as [aValues aTyp].
  destruct (extractValues b) as [bValues bTyp].
  simpl. now rewrite combineOuter_spec.
Qed.

Lemma crossResults_length (A B : list value) :
  (forall a b, In a A -> In b B -> snd (op a b) = None) ->
  List.length (crossResults op A B) = (List.length A * List.length B)%nat.
Proof.
  intros Hok. unfold crossResults.
  rewrite <- length_prod.
  assert (Hall : forall p, In p (list_prod A B) -> snd (op (fst p) (snd p)) = None).
  { intros [a b] Hin. apply in_prod_iff in Hin. now apply Hok. }
  induction (list_prod A B) as [|p ps IH]; simpl; [reflexivity|].
  rewrite length_app, IH by (intros q Hq; apply Hall; now right).
  unfold successful.
  specialize (Hall p (or_introl eq_refl)).
  destruct (op (fst p) (snd p)) as [res [msg|]]; simpl in *;
    [discriminate | reflexivity].
Qed.

Lemma crossResults_nil_l (B : list value) : crossResults op [] B = [].
Proof. reflexivity. Qed.

Lemma crossResults_nil_r (A : list value) : crossResults op A [] = [].
Proof.
  unfold crossResults.
  induction A as [|a A IH]; simpl; [reflexivity | exact IH].
Qed.

End Combine.

Lemma arithmetic_unfold (o : Arithmetic) (x y : value) :
  arithmetic o x y = ofPair (combineValues x y (arithmeticValues o)).
Proof. destruct o; reflexivity. Qed.

Lemma arithmetic_values (o : Arithmetic) (x y : value) :
  Eigenstates (arithmetic o x y)
  = crossResults (arithmeticValues o) (operandValues x) (operandValues y).
Proof. now rewrite arithmetic_unfold, combineValues_spec. Qed.

Lemma arithmetic_typ (o : Arithmetic) (x y : value) :
  typ (arithmetic o x y)
  = if SuperpositionType_eqb (operandMode x) Conjunctive
       || SuperpositionType_eqb (operandMode y) Conjunctive
    then Conjunctive else Disjunctive.
Proof. now rewrite arithmetic_unfold, combineValues_spec. Qed.

Lemma SuperpositionType_eqb_eq (s t : SuperpositionType) :
  SuperpositionType_eqb s t = true <-> s = t.
Proof. destruct s, t; simpl; split; congruence. Qed.

Lemma arithmetic_typ_conjunctive (o : Arithmetic) (x y : value) :
  typ (arithmetic o x y) = Conjunctive
  <-> operandMode x = Conjunctive \/ operandMode y = Conjunctive.
Proof.
  rewrite arithmetic_typ.
  destruct (operandMode x), (operandMode y); simpl; split;
    try (intros [H|H]); auto; discriminate.
Qed.

Lemma arithmetic_typ_disjunctive (o : Arithmetic) (x y : value) :
  typ (arithmetic o x y) = Disjunctive
  <-> operandMode x = Disjunctive /\ operandMode y = Disjunctive.
Proof.
  rewrite arithmetic_typ.
  destruct (operandMode x), (operandMode y); simpl; split;
    try (intros [Hx Hy]); auto; discriminate.
Qed.

(** ** Per-pair arithmetic *)

Lemma arithmeticValues_unfold (o : Arithmetic) (a b : value) :
  arithmeticValues o a b
  = if excluded o a b
    then (Nil, snd (arithmeticValues o a b))
    else (OfFloat64
            (match o with
             | OpAdd => coerced a + coerced b
             | OpSubtract => coerced a - coerced b
             | OpMultiply => coerced a * coerced b
             | OpDivide => coerced a / coerced b
             | OpModulo => math_Mod (coerced a) (coerced b)
             end)%float, None).
Proof.
  unfold excluded, zeroDivisor, coerces, coerced.
  destruct o; unfold arithmeticValues, addValues, subValues, mulValues,
    divValues, modValues, performArithmetic;
    destruct (getNumericValue a) as [aVal aKind];
    destruct (getNumericValue b) as [bVal bKind]; cbn [fst snd];
    destruct (reflect.Kind_eqb aKind reflect.Invalid);
    destruct (reflect.Kind_eqb bKind reflect.Invalid);
    cbn [negb orb]; try reflexivity;
    destruct (bVal =? 0)%float; reflexivity.
Qed.

Lemma arithmeticValues_error (o : Arithmetic) (a b : value) :
  snd (arithmeticValues o a b) <> None <-> excluded o a b = true.
Proof.
  split.
  - intros Herr. rewrite arithmeticValues_unfold in Herr.
    destruct (excluded o a b); [reflexivity | now elim Herr].
  - intros Hex.
    unfold excluded, zeroDivisor, coerces, coerced in Hex.
    destruct o; unfold arithmeticValues, addValues, subValues, mulValues,
      divValues, modValues, performArithmetic;
      destruct (getNumericValue a) as [aVal aKind];
      destruct (getNumericValue b) as [bVal bKind]; cbn [fst snd] in *;
      destruct (reflect.Kind_eqb aKind reflect.Invalid);
      destruct (reflect.Kind_eqb bKind reflect.Invalid);
      cbn [negb orb] in *; try discriminate;
      try (rewrite Hex); discriminate.
Qed.

Lemma successful_excluded (o : Arithmetic) (p : value * value) :
  successful (arithmeticValues o) p
  = if excluded o (fst p) (snd p) then []
    else [fst (arithmeticValues o (fst p) (snd p))].
Proof.
  unfold successful.
  destruct (excluded o (fst p) (snd p)) eqn:Hex.
  - apply arithmeticValues_error in Hex.
    destruct (arithmeticValues o (fst p) (snd p)) as [res [msg|]];
      [reflexivity | now elim Hex].
  - rewrite arithmeticValues_unfold, Hex. reflexivity.
Qed.

Lemma successful_isFloat64 (o : Arithmetic) (p : value * value) :
  Forall isFloat64 (successful (arithmeticValues o) p).
Proof.
  rewrite successful_excluded.
  destruct (excluded o (fst p) (snd p)) eqn:Hex; [constructor|].
  rewrite arithmeticValues_unfold, Hex.
  constructor; [eexists; reflexivity | constructor].
Qed.

(** ** Arithmetic operations *)

(** C2: the value sequence of an arithmetic result is the sequence of the
    successful per-pair results of the cross product, a-major and b-minor,
    duplicates kept; when no pair is excluded its length is
    len(A) * len(B); Add(any(1,2,3), all(4,5)) has eigenstates
    [5,6,6,7,7,8]. *)
Theorem arithmetic_cross_product (o : Arithmetic) (x y : value) :
  Eigenstates (arithmetic o x y)
  = flat_map (successful (arithmeticValues o))
      (list_prod (operandValues x) (operandValues y))
  /\ ((forall a b, In a (operandValues x) -> In b (operandValues y) ->
         snd (arithmeticValues o a b) = None) ->
      List.length (Eigenstates (arithmetic o x y))
      = (List.length (operandValues x) * List.length (operandValues y))%nat)
  /\ Eigenstates (Add (sp (Any (ints [1; 2; 3]))) (sp (All (ints [4; 5]))))
     = [OfFloat64 5; OfFloat64 6; OfFloat64 6; OfFloat64 7; OfFloat64 7;
        OfFloat64 8].
Proof.
  split; [|split].
  - apply arithmetic_values.
  - intros Hok. rewrite arithmetic_values. now apply crossResults_length.
  - vm_compute. reflexivity.
Qed.

Lemma arithmetic_cross_product_witness :
  List.length
    (Eigenstates (arithmetic OpAdd (sp (Any (ints [1; 2; 3])))
                    (sp (All (ints [4; 5])))))
  = 6%nat.
Proof.
  apply (proj1 (proj2 (arithmetic_cross_product OpAdd
                         (sp (Any (ints [1; 2; 3])))
                         (sp (All (ints [4; 5])))))).
  intros a b Ha Hb. simpl in Ha, Hb.
  destruct Ha as [<-|[<-|[<-|[]]]]; destruct Hb as [<-|[<-|[]]];
    reflexivity.
Defined.

(** C3: the mode of an arithmetic result is Conjunctive exactly when one
    of the operands is; a bare scalar counts as a one-element Disjunctive
    superposition; Conjunctive is never demoted. *)
Theorem arithmetic_mode_promotion (o : Arithmetic) (x y : value) :
  (typ (arithmetic o x y) = Conjunctive
   <-> operandMode x = Conjunctive \/ operandMode y = Conjunctive)
  /\ (typ (arithmetic o x y) = Disjunctive
      <-> operandMode x = Disjunctive /\ operandMode y = Disjunctive)
  /\ (forall s, extractValues (sp s) = (values s, typ s))
  /\ (forall v, isScalar v = true -> extractValues v = ([v], Disjunctive)).
Proof.
  split; [apply arithmetic_typ_conjunctive|].
  split; [apply arithmetic_typ_disjunctive|].
  split; [reflexivity|].
  intros v Hv. destruct v; try reflexivity. discriminate.
Qed.

Lemma arithmetic_mode_promotion_witness :
  typ (arithmetic OpAdd (int 1) (sp (All (ints [4; 5])))) = Conjunctive
  /\ extractValues (int 1) = ([int 1], Disjunctive).
Proof.
  destruct (arithmetic_mode_promotion OpAdd (int 1) (sp (All (ints [4; 5]))))
    as [Hconj [_ [_ Hscalar]]].
  split.
  - apply Hconj. right. reflexivity.
  - apply Hscalar. reflexivity.
Defined.

Lemma Nilable_combineValues_Val (x y : value)
    (op : value -> value -> value * error) :
  Nilable.combineValues (Nilable.Val x) (Nilable.Val y) op
  = Some (combineValues x y op).
Proof.
  unfold Nilable.combineValues, combineValues.
  assert (Hex : forall v, Nilable.extractValues (Nilable.Val v)
                          = Some (extractValues v)) by (now intros []).
  rewrite !Hex.
  destruct (extractValues x) as [aValues aTyp].
  now destruct (extractValues y) as [bValues bTyp].
Qed.

Lemma Nilable_arithmetic_Val (o : Arithmetic) (x y : value) :
  Nilable.arithmetic o (Nilable.Val x) (Nilable.Val y)
  = Some (arithmetic o x y).
Proof.
  destruct o; unfold Nilable.arithmetic, Nilable.Add, Nilable.Subtract,
    Nilable.Multiply, Nilable.Divide, Nilable.Modulo;
    now rewrite Nilable_combineValues_Val.
Qed.

Lemma Nilable_arithmetic_panics (o : Arithmetic) (a b : Nilable.operand) :
  Nilable.arithmetic o a b = None
  <-> a = Nilable.NilSuperposition \/ b = Nilable.NilSuperposition.
Proof.
  destruct a as [|x], b as [|y].
  - split; [now left | now destruct o].
  - split; [now left | now destruct o].
  - split; [now right|]. intros _.
    destruct o; unfold Nilable.arithmetic, Nilable.Add, Nilable.Subtract,
      Nilable.Multiply, Nilable.Divide, Nilable.Modulo,
      Nilable.combineValues;
      now destruct (Nilable.extractValues (Nilable.Val x)) as [[? ?]|].
  - rewrite Nilable_arithmetic_Val. split; [discriminate|].
    intros [H|H]; discriminate.
Qed.

(** C4, amended: on operands that are bare values or non-nil
    superpositions every arithmetic operation returns a superposition and
    signals no error; a pair is left out exactly when an operand fails
    numeric coercion or the operator is Divide or Modulo and the divisor
    coerces to zero, and every other pair contributes its result;
    Divide(any(1,2), any(0,2)) keeps the results of the b=2 pairs only.
    The operation fails exactly when an operand is a nil
    *Superposition. *)
Theorem arithmetic_total_on_non_nil (o : Arithmetic) (x y : value) :
  Nilable.arithmetic o (Nilable.Val x) (Nilable.Val y)
  = Some (arithmetic o x y)
  /\ (forall a b : Nilable.operand,
        Nilable.arithmetic o a b = None
        <-> a = Nilable.NilSuperposition \/ b = Nilable.NilSuperposition)
  /\ (forall a b,
        snd (arithmeticValues o a b) <> None <-> excluded o a b = true)
  /\ Eigenstates (arithmetic o x y)
     = flat_map
         (fun p => if excluded o (fst p) (snd p) then []
                   else [fst (arithmeticValues o (fst p) (snd p))])
         (list_prod (operandValues x) (operandValues y))
  /\ Nilable.Divide (Nilable.Val (sp (Any (ints [1; 2]))))
       (Nilable.Val (sp (Any (ints [0; 2]))))
     = Some (mkSuperposition [OfFloat64 0.5; OfFloat64 1] Disjunctive).
Proof.
  split; [apply Nilable_arithmetic_Val|].
  split; [apply Nilable_arithmetic_panics|].
  split; [|split].
  - intros a b. apply arithmeticValues_error.
  - rewrite arithmetic_values. unfold crossResults.
    apply flat_map_ext. intros p. apply successful_excluded.
  - vm_compute. reflexivity.
Qed.

(** C4 as stated fails on a nil *Superposition operand: Add of it and 1
    returns no superposition. *)
Lemma Add_nil_operand_panics :
  ~ exists s : Superposition,
      Nilable.Add Nilable.NilSuperposition (Nilable.Val (int 1)) = Some s.
Proof. intros [s Hs]. discriminate Hs. Qed.

(** C10: every eigenstate of an arithmetic result is a float64, also when
    both inputs are integers (Add(2, 3) stores the float 5, not the int 5),
    while Any and All store the given values unchanged. *)
Theorem arithmetic_results_float64 (o : Arithmetic) (x y : value) :
  Forall isFloat64 (Eigenstates (arithmetic o x y))
  /\ (forall vs, Eigenstates (Any vs) = vs /\ Eigenstates (All vs) = vs)
  /\ Eigenstates (Add (int 2) (int 3)) = [OfFloat64 5]
  /\ OfFloat64 5 <> int 5.
Proof.
  repeat split.
  - rewrite arithmetic_values. unfold crossResults.
    induction (list_prod (operandValues x) (operandValues y)) as [|p ps IH];
      simpl; [constructor|].
    apply Forall_app. split; [apply successful_isFloat64 | exact IH].
  - discriminate.
Qed.

(** ** Empty operands *)

Lemma accumulate_empty (xs : list value) (divisors : Superposition) :
  values divisors = [] -> values (accumulate divisors xs) = [].
Proof.
  revert divisors.
  induction xs as [|i xs IH]; intros divisors Hnil; simpl; [exact Hnil|].
  apply IH.
  change (Eigenstates (arithmetic OpAdd (sp divisors) i) = []).
  rewrite arithmetic_values.
  unfold operandValues; simpl. now rewrite Hnil.
Qed.

(** C8: an empty operand is absorbing: when either operand is a
    superposition without values, so is the result, while mode promotion
    still applies; Add(All(), x) is empty, and repeated Add into an empty
    superposition accumulates nothing. *)
Theorem empty_operand_absorbing (o : Arithmetic) (s : Superposition)
    (y : value) (xs : list value) :
  values s = [] ->
  Eigenstates (arithmetic o (sp s) y) = []
  /\ Eigenstates (arithmetic o y (sp s)) = []
  /\ (typ (arithmetic o (sp s) y) = Conjunctive
      <-> typ s = Conjunctive \/ operandMode y = Conjunctive)
  /\ Eigenstates (Add (sp (All [])) y) = []
  /\ Eigenstates (accumulate (All []) xs) = [].
Proof.
  intros Hnil. repeat split.
  - rewrite arithmetic_values. unfold operandValues at 1; simpl.
    now rewrite Hnil.
  - rewrite arithmetic_values. unfold operandValues at 2; simpl.
    rewrite Hnil. apply crossResults_nil_r.
  - intros H. now apply (arithmetic_typ_conjunctive o (sp s) y) in H.
  - intros H. now apply (arithmetic_typ_conjunctive o (sp s) y).
  - change (Eigenstates (arithmetic OpAdd (sp (All [])) y) = []).
    now rewrite arithmetic_values.
  - now apply accumulate_empty.
Qed.

Lemma empty_operand_absorbing_witness :
  Eigenstates (arithmetic OpModulo (int 29) (sp (All []))) = []
  /\ Eigenstates (accumulate (All []) (ints [2; 3; 4; 5])) = [].
Proof.
  destruct (empty_operand_absorbing OpModulo (All []) (int 29)
              (ints [2; 3; 4; 5]) eq_refl)
    as [_ [Hr [_ [_ Hacc]]]].
  split; [exact Hr | exact Hacc].
Defined.

(** Hence the README's [isPrime] answers true for every n > 1. *)
Lemma isPrime_always_true (n : Z) : 1 < n -> isPrime n = true.
Proof.
  intros Hn. unfold isPrime.
  destruct (n <=? 1) eqn:Hle; [apply Z.leb_le in Hle; lia|].
  set (divisors := accumulate _ _).
  assert (Hd : values divisors = []) by (now apply accumulate_empty).
  assert (Hm : Eigenstates (arithmetic OpModulo (int n) (sp divisors)) = []).
  { rewrite arithmetic_values. unfold operandValues at 2; simpl.
    rewrite Hd. apply crossResults_nil_r. }
  change (values (Modulo (int n) (sp divisors)) = []) in Hm.
  unfold IsTrue. now rewrite Hm.
Qed.

(** ** The filtering loops *)

Section Compare.

Variable comp : value -> value -> bool * error.

Lemma compareOuter_spec (bTyp : SuperpositionType)
    (aValues bValues acc : list value) :
  compareOuter comp bTyp aValues bValues acc
  = acc ++ filter (fun av => compareInner comp bTyp av bValues false) aValues.
Proof.
  revert acc.
  induction aValues as [|av rest IH]; intros acc; simpl.
  - now rewrite app_nil_r.
  - rewrite IH.
    destruct (compareInner comp bTyp av bValues false); simpl;
      [now rewrite <- app_assoc | reflexivity].
Qed.

Lemma compareValues_spec (a b : value) :
  compareValues a b comp
  = (filter (fun av => compareInner comp (operandMode b) av (operandValues b)
                         false) (operandValues a),
     operandMode a).
Proof.
  unfold compareValues, operandValues, operandMode.
  destruct (extractValues a) as [aValues aTyp].
  destruct (extractValues b) as [bValues bTyp].
  simpl. now rewrite compareOuter_spec.
Qed.

(** A match ends the inner scan at once, whatever follows. *)
Lemma compareInner_stops (bTyp : SuperpositionType) (av bv : value)
    (rest : list value) (m : bool) :
  holds comp av bv = true -> compareInner comp bTyp av (bv :: rest) m = true.
Proof.
  unfold holds, verdict. simpl.
  destruct (comp av bv) as [[|] [msg|]]; intros H;
    try discriminate; reflexivity.
Qed.

Lemma compareInner_disjunctive (av : value) (bValues : list value)
    (m : bool) :
  compareInner comp Disjunctive av bValues m
  = existsb (holds comp av) bValues || m.
Proof.
  induction bValues as [|bv rest IH]; simpl; [reflexivity|].
  unfold holds at 1, verdict.
  destruct (comp av bv) as [[|] [msg|]]; simpl; auto.
Qed.

Lemma compareInner_conjunctive (av : value) (bValues : list value)
    (m : bool) :
  compareInner comp Conjunctive av bValues m
  = match firstVerdict comp av bValues with
    | Some r => r
    | None => m
    end.
Proof.
  induction bValues as [|bv rest IH]; simpl; [reflexivity|].
  unfold verdict.
  destruct (comp av bv) as [[|] [msg|]]; simpl; auto.
Qed.

Lemma compareInner_no_verdict (bTyp : SuperpositionType) (av : value)
    (bValues : list value) (m : bool) :
  (forall bv, In bv bValues -> verdict comp av bv = None) ->
  compareInner comp bTyp av bValues m = m.
Proof.
  induction bValues as [|bv rest IH]; intros Hnone; simpl; [reflexivity|].
  pose proof (Hnone bv (or_introl eq_refl)) as Hbv.
  unfold verdict in Hbv.
  destruct (comp av bv) as [[|] [msg|]]; try discriminate;
    apply IH; intros bv' Hin; apply Hnone; now right.
Qed.

End Compare.

Lemma filtering_unfold (o : Filtering) (x y : value) :
  filtering o x y = ofPair (compareValues x y (filteringValues o)).
Proof. destruct o; reflexivity. Qed.

Lemma filtering_values (o : Filtering) (x y : value) :
  Eigenstates (filtering o x y)
  = filter (fun av => compareInner (filteringValues o) (operandMode y) av
                        (operandValues y) false) (operandValues x).
Proof. now rewrite filtering_unfold, compareValues_spec. Qed.

Lemma filtering_typ (o : Filtering) (x y : value) :
  typ (filtering o x y) = operandMode x.
Proof. now rewrite filtering_unfold, compareValues_spec. Qed.

(** ** Per-pair comparison *)

Lemma filteringValues_unfold (o : Filtering) (a b : value) :
  filteringValues o a b
  = if coerces a && coerces b
    then (match o with
          | OpLessThan => coerced a <? coerced b
          | OpGreaterThan => coerced b <? coerced a
          | OpEqualTo => coerced a =? coerced b
          end%float, None)
    else (false, errors_New "unsupported type in comparison").
Proof.
  unfold coerces, coerced.
  destruct o; unfold filteringValues, lessThanValues, greaterThanValues,
    equalToValues, performComparison;
    destruct (getNumericValue a) as [aVal aKind];
    destruct (getNumericValue b) as [bVal bKind]; cbn [fst snd];
    destruct (reflect.Kind_eqb aKind reflect.Invalid);
    destruct (reflect.Kind_eqb bKind reflect.Invalid); reflexivity.
Qed.

Lemma verdict_none (o : Filtering) (a b : value) :
  verdict (filteringValues o) a b = None
  <-> coerces a = false \/ coerces b = false.
Proof.
  unfold verdict. rewrite filteringValues_unfold.
  destruct (coerces a), (coerces b); simpl; split; intros H;
    try discriminate; auto; destruct H; discriminate.
Qed.

Lemma holds_equalTo (a b : value) :
  holds equalToValues a b = numericallyEqual a b.
Proof.
  unfold holds, verdict, numericallyEqual.
  rewrite (filteringValues_unfold OpEqualTo).
  destruct (coerces a), (coerces b); simpl; try reflexivity.
  now destruct (coerced a =? coerced b)%float.
Qed.

(** ** Filtering operations *)

(** C1, as the code has it: with a Conjunctive right operand the inner scan
    also stops at the first true comparison, so the first verdict alone
    decides; EqualTo(5, all(5, 6)) keeps 5 although 5 is not equal to 6. *)
Theorem conjunctive_filter_first_verdict (o : Filtering) (x : value)
    (B : list value) :
  Eigenstates (filtering o x (sp (All B)))
  = filter (fun a => match firstVerdict (filteringValues o) a B with
                     | Some r => r
                     | None => false
                     end) (operandValues x)
  /\ Eigenstates (EqualTo (int 5) (sp (All (ints [5; 6])))) = [int 5]
  /\ holds equalToValues (int 5) (int 6) = false.
Proof.
  split; [|split].
  - rewrite filtering_values. apply filter_ext. intros a.
    apply compareInner_conjunctive.
  - vm_compute. reflexivity.
  - vm_compute. reflexivity.
Qed.

(** C6: the mode of a filtering result is the left operand's mode, a bare
    scalar giving Disjunctive; the right operand has no say in it. *)
Theorem filtering_mode_is_left_mode (o : Filtering) (x y : value) :
  typ (filtering o x y) = operandMode x
  /\ (forall y', typ (filtering o x y') = typ (filtering o x y))
  /\ (forall s, typ (filtering o (sp s) y) = typ s)
  /\ (isScalar x = true -> typ (filtering o x y) = Disjunctive).
Proof.
  repeat split.
  - apply filtering_typ.
  - intros y'. now rewrite !filtering_typ.
  - intros s. now rewrite filtering_typ.
  - intros Hx. rewrite filtering_typ.
    destruct x; try reflexivity. discriminate.
Qed.

Lemma filtering_mode_is_left_mode_witness :
  typ (filtering OpLessThan (int 12) (sp (All (ints [10; 15; 20]))))
  = Disjunctive.
Proof.
  apply (proj2 (proj2 (proj2
    (filtering_mode_is_left_mode OpLessThan (int 12)
       (sp (All (ints [10; 15; 20]))))))).
  reflexivity.
Defined.

(** C7: IsTrue holds exactly of the superpositions with at least one value,
    whatever the mode and whatever the values are. *)
Theorem IsTrue_iff_nonempty (s : Superposition) :
  (IsTrue s = true <-> (0 < List.length (Eigenstates s))%nat)
  /\ (forall vs t, IsTrue (mkSuperposition vs t)
                   = negb (Nat.eqb (List.length vs) 0)).
Proof.
  split.
  - unfold IsTrue, Eigenstates.
    destruct (values s) as [|v vs]; simpl; split; intros H;
      try discriminate; try lia; reflexivity.
  - intros vs t. unfold IsTrue. simpl. now destruct vs.
Qed.

(** C9: a left value that gets no verdict from any value of the right
    operand (the right operand is empty, or none of its values coerces) is
    rejected, for either mode of the right operand: a Conjunctive right
    operand is never satisfied vacuously. *)
Theorem no_verdict_rejected (o : Filtering) (x y : value) :
  (forall a,
      (forall b, In b (operandValues y) ->
                 verdict (filteringValues o) a b = None) ->
      ~ In a (Eigenstates (filtering o x y)))
  /\ (operandValues y = [] -> Eigenstates (filtering o x y) = [])
  /\ ((forall b, In b (operandValues y) -> coerces b = false) ->
      Eigenstates (filtering o x y) = []).
Proof.
  assert (Hrej : forall a,
             (forall b, In b (operandValues y) ->
                        verdict (filteringValues o) a b = None) ->
             ~ In a (Eigenstates (filtering o x y))).
  { intros a Hnone Hin. rewrite filtering_values in Hin.
    apply filter_In in Hin. destruct Hin as [_ Hm].
    rewrite compareInner_no_verdict in Hm by exact Hnone. discriminate. }
  assert (Hall : (forall a b, In b (operandValues y) ->
                              verdict (filteringValues o) a b = None) ->
                 Eigenstates (filtering o x y) = []).
  { intros Hnone.
    destruct (Eigenstates (filtering o x y)) as [|a l] eqn:E; [reflexivity|].
    exfalso. apply (Hrej a (Hnone a)). now left. }
  split; [exact Hrej | split].
  - intros Hnil. apply Hall. intros a b Hin. rewrite Hnil in Hin.
    destruct Hin.
  - intros Hno. apply Hall. intros a b Hin. apply verdict_none.
    right. now apply Hno.
Qed.

Lemma no_verdict_rejected_witness :
  Eigenstates (filtering OpLessThan (int 10)
                 (sp (All [OfString "cat"; OfString "dog"; OfString "bird"])))
  = []
  /\ Eigenstates (filtering OpEqualTo (int 10) (sp (All []))) = []
  /\ ~ In (int 10)
         (Eigenstates (filtering OpGreaterThan (sp (Any (ints [10; 11])))
                         (sp (All []))) ).
Proof.
  split; [|split].
  - apply (proj2 (proj2 (no_verdict_rejected OpLessThan (int 10)
             (sp (All [OfString "cat"; OfString "dog"; OfString "bird"]))))).
    intros b Hb. simpl in Hb.
    destruct Hb as [<-|[<-|[<-|[]]]]; reflexivity.
  - apply (proj1 (proj2 (no_verdict_rejected OpEqualTo (int 10)
             (sp (All []))))).
    reflexivity.
  - apply (proj1 (no_verdict_rejected OpGreaterThan
             (sp (Any (ints [10; 11]))) (sp (All [])))).
    intros b Hb. destruct Hb.
Defined.

(** ** float64 of small integers

    An integer below 2^53 in magnitude converts to float64 without
    rounding, so that float equality of two such conversions is integer
    equality. *)

Lemma digits2_pos_size (p : positive) : digits2_pos p = Pos.size p.
Proof. induction p; simpl; congruence. Qed.

Lemma digits2_pos_bound (p : positive) :
  Zpos p < 2 ^ 53 -> Zpos (digits2_pos p) <= 53.
Proof.
  intros Hp. rewrite digits2_pos_size.
  pose proof (Pos.size_le p) as Hle.
  apply Pos2Z.pos_le_pos in Hle.
  rewrite Pos2Z.inj_pow in Hle.
  destruct (Z_le_gt_dec (Zpos (Pos.size p)) 53) as [|Hgt]; [assumption|].
  exfalso.
  assert (H : 2 ^ 54 <= 2 ^ Zpos (Pos.size p)) by (apply Z.pow_le_mono_r; lia).
  change (Zpos p~0) with (2 * Zpos p) in Hle.
  change (2 ^ 54) with (2 * 2 ^ 53) in H. lia.
Qed.

Lemma digits2_pos_iter_xO (p k : positive) :
  digits2_pos (Pos.iter xO p k) = (digits2_pos p + k)%positive.
Proof.
  induction k as [|k IH] using Pos.peano_ind.
  - simpl. lia.
  - rewrite Pos.iter_succ. simpl. rewrite IH. lia.
Qed.

Lemma iter_xO_inj (k p q : positive) :
  Pos.iter xO p k = Pos.iter xO q k -> p = q.
Proof.
  induction k as [|k IH] using Pos.peano_ind.
  - simpl. congruence.
  - rewrite !Pos.iter_succ. intros H. apply IH. congruence.
Qed.

Lemma exactMantissa_digits (p : positive) :
  Zpos (digits2_pos p) <= 53 -> digits2_pos (exactMantissa p) = 53%positive.
Proof.
  intros Hd. unfold exactMantissa, exactExponent.
  destruct (Zpos (digits2_pos p) - 53) as [|q|q] eqn:Hq; try lia.
  rewrite digits2_pos_iter_xO. lia.
Qed.

Lemma shl_align_exact (p : positive) :
  Zpos (digits2_pos p) <= 53 ->
  shl_align p 0 (exactExponent p) = (exactMantissa p, exactExponent p).
Proof.
  intros Hd.
  assert (He : exactExponent p <= 0) by (unfold exactExponent; lia).
  unfold shl_align, exactMantissa. rewrite Z.sub_0_r.
  destruct (exactExponent p) as [|q|q]; try reflexivity. lia.
Qed.

Lemma fexp_normal (e : Z) : -1021 <= e -> fexp prec emax e = e - 53.
Proof. intros He. unfold fexp, emin, prec, emax. lia. Qed.

Lemma binary_round_exact (s : bool) (p : positive) :
  Zpos p < 2 ^ 53 ->
  binary_round prec emax s p 0
  = S754_finite s (exactMantissa p) (exactExponent p).
Proof.
  intros Hp. pose proof (digits2_pos_bound p Hp) as Hd.
  pose proof (exactMantissa_digits p Hd) as Hm.
  unfold binary_round.
  rewrite Z.add_0_r, fexp_normal by lia.
  fold (exactExponent p). rewrite (shl_align_exact p Hd).
  assert (Hf : fexp prec emax (53 + exactExponent p) - exactExponent p = 0).
  { rewrite fexp_normal; unfold exactExponent; lia. }
  unfold binary_round_aux, shr_fexp, Zdigits2.
  rewrite Hm, Hf.
  cbn [shr shr_record_of_loc shr_m loc_of_shr_record round_nearest_even].
  rewrite Hm, Hf. cbn [shr shr_m].
  destruct (exactExponent p <=? emax - prec) eqn:Hle; [reflexivity|].
  apply Z.leb_gt in Hle. unfold exactExponent, emax, prec in Hle. lia.
Qed.

Lemma exactFloat_valid (n : Z) :
  Z.abs n < 2 ^ 53 -> valid_binary (exactFloat n) = true.
Proof.
  intros Hn.
  assert (H : forall s p, Zpos p < 2 ^ 53 ->
    valid_binary
      (S754_finite s (exactMantissa p) (exactExponent p)) = true).
  { intros s p Hp. pose proof (digits2_pos_bound p Hp) as Hd.
    unfold valid_binary, bounded, canonical_mantissa.
    rewrite (exactMantissa_digits p Hd).
    rewrite fexp_normal by (unfold exactExponent; lia).
    unfold exactExponent, emax, prec.
    apply andb_true_iff. split; [apply Z.eqb_eq | apply Z.leb_le]; lia. }
  destruct n as [|p|p]; [reflexivity | apply H | apply H]; exact Hn.
Qed.

Lemma binary_normalize_exact (n : Z) :
  Z.abs n < 2 ^ 53 -> binary_normalize prec emax n 0 false = exactFloat n.
Proof.
  intros Hn. destruct n as [|p|p]; simpl;
    [reflexivity | apply binary_round_exact | apply binary_round_exact];
    exact Hn.
Qed.

Lemma Prim2SF_float64_of_Z (n : Z) :
  Z.abs n < 2 ^ 53 -> Prim2SF (float64_of_Z n) = exactFloat n.
Proof.
  intros Hn. unfold float64_of_Z.
  rewrite binary_normalize_exact by exact Hn.
  apply Prim2SF_SF2Prim. now apply exactFloat_valid.
Qed.

Lemma exact_inj (p q : positive) :
  exactExponent p = exactExponent q -> exactMantissa p = exactMantissa q ->
  p = q.
Proof.
  unfold exactMantissa. intros He. rewrite <- He.
  destruct (exactExponent p) as [|k|k]; try congruence.
  apply iter_xO_inj.
Qed.

Lemma SFeqb_exactFloat (a b : Z) :
  SFeqb (exactFloat a) (exactFloat b) = (a =? b).
Proof.
  assert (Hfin : forall p q,
    match exactExponent p ?= exactExponent q with
    | Eq => Pos.compare_cont Eq (exactMantissa p) (exactMantissa q)
    | c => c
    end = Eq <-> p = q).
  { intros p q. split.
    - destruct (exactExponent p ?= exactExponent q) eqn:He; try discriminate.
      apply Z.compare_eq in He. intros Hm.
      apply (Pos.compare_eq (exactMantissa p) (exactMantissa q)) in Hm.
      now apply exact_inj.
    - intros ->. rewrite Z.compare_refl. apply Pos.compare_refl. }
  destruct a as [|p|p], b as [|q|q]; try reflexivity; unfold SFeqb; simpl.
  - specialize (Hfin p q).
    destruct (Pos.eqb_spec p q) as [Heq|Hne].
    + apply Hfin in Heq.
      destruct (exactExponent p ?= exactExponent q);
        try discriminate; now rewrite Heq.
    + destruct (exactExponent p ?= exactExponent q); try reflexivity.
      destruct (Pos.compare_cont Eq (exactMantissa p) (exactMantissa q));
        try reflexivity.
      elim Hne. now apply Hfin.
  - specialize (Hfin p q).
    destruct (Pos.eqb_spec p q) as [Heq|Hne].
    + apply Hfin in Heq.
      destruct (exactExponent p ?= exactExponent q);
        try discriminate; now rewrite Heq.
    + destruct (exactExponent p ?= exactExponent q); try reflexivity.
      destruct (Pos.compare_cont Eq (exactMantissa p) (exactMantissa q));
        try reflexivity.
      elim Hne. now apply Hfin.
Qed.

Lemma float64_of_Z_eqb (a b : Z) :
  Z.abs a < 2 ^ 53 -> Z.abs b < 2 ^ 53 ->
  (float64_of_Z a =? float64_of_Z b)%float = (a =? b).
Proof.
  intros Ha Hb.
  rewrite eqb_spec, !Prim2SF_float64_of_Z by assumption.
  apply SFeqb_exactFloat.
Qed.

Lemma numericallyEqual_ints (a b : Z) :
  exactInt a -> exactInt b -> numericallyEqual (int a) (int b) = (a =? b).
Proof.
  intros Ha Hb. unfold numericallyEqual, coerces, coerced. simpl.
  now apply float64_of_Z_eqb.
Qed.

(** C5, amended: with a Disjunctive right operand (a bare scalar included)
    a left value is kept exactly when the predicate holds for some value of
    the right operand, in the left operand's order and with its duplicates;
    EqualTo(any(A), any(B)) keeps the values of A that are numerically equal
    to some value of B, which for Go ints below 2^53 in magnitude is the
    intersection of A and B. *)
Theorem disjunctive_filter_exists (o : Filtering) (x y : value) :
  operandMode y = Disjunctive ->
  Eigenstates (filtering o x y)
  = filter (fun a => existsb (holds (filteringValues o) a) (operandValues y))
      (operandValues x)
  /\ (forall a b rest,
        holds (filteringValues o) a b = true ->
        compareInner (filteringValues o) (operandMode y) a (b :: rest) false
        = true)
  /\ (forall A B,
        Eigenstates (EqualTo (sp (Any A)) (sp (Any B)))
        = filter (fun a => existsb (numericallyEqual a) B) A)
  /\ (forall A B : list Z,
        Forall exactInt A -> Forall exactInt B ->
        Eigenstates (EqualTo (sp (Any (ints A))) (sp (Any (ints B))))
        = ints (filter (fun a => existsb (Z.eqb a) B) A))
  /\ Eigenstates (EqualTo (sp (Any (ints [1; 2; 3; 4])))
                    (sp (Any (ints [3; 4; 5; 6]))))
     = ints [3; 4].
Proof.
  intros Hy.
  assert (Hany : forall A B,
             Eigenstates (EqualTo (sp (Any A)) (sp (Any B)))
             = filter (fun a => existsb (numericallyEqual a) B) A).
  { intros A B.
    change (EqualTo (sp (Any A)) (sp (Any B)))
      with (filtering OpEqualTo (sp (Any A)) (sp (Any B))).
    rewrite filtering_values. apply filter_ext. intros a.
    change (operandMode (sp (Any B))) with Disjunctive.
    change (operandValues (sp (Any B))) with B.
    rewrite compareInner_disjunctive, orb_false_r.
    change (filteringValues OpEqualTo) with equalToValues.
    induction B as [|b B IH]; cbn [existsb]; [reflexivity|].
    now rewrite IH, holds_equalTo. }
  split; [|split; [|split; [exact Hany | split]]].
  - rewrite filtering_values, Hy. apply filter_ext. intros a.
    now rewrite compareInner_disjunctive, orb_false_r.
  - intros a b rest Hab. now apply compareInner_stops.
  - intros A B HA HB. rewrite Hany. unfold ints.
    induction HA as [|a A Ha HA IH]; simpl; [reflexivity|].
    assert (Hex : existsb (numericallyEqual (int a)) (map int B)
                  = existsb (Z.eqb a) B).
    { clear IH. induction HB as [|b B Hb HB IHB]; simpl; [reflexivity|].
      now rewrite IHB, numericallyEqual_ints. }
    rewrite Hex, IH. now destruct (existsb (Z.eqb a) B).
  - vm_compute. reflexivity.
Qed.

Lemma disjunctive_filter_exists_witness :
  Eigenstates (filtering OpLessThan (sp (All (ints [1; 7; 3; 7])))
                 (sp (Any (ints [2; 8]))))
  = filter (fun a => existsb (holds lessThanValues a) (ints [2; 8]))
      (ints [1; 7; 3; 7]).
Proof.
  apply (proj1 (disjunctive_filter_exists OpLessThan
                  (sp (All (ints [1; 7; 3; 7]))) (sp (Any (ints [2; 8])))
                  eq_refl)).
Defined.

(** C5 as stated fails on values that do not coerce: "cat" belongs to both
    A and B, and EqualTo(any(A), any(B)) does not keep it. *)
Lemma EqualTo_any_text_not_intersection :
  ~ (forall a,
        In a (Eigenstates (EqualTo (sp (Any [OfString "cat"]))
                             (sp (Any [OfString "cat"]))))
        <-> In a [OfString "cat"] /\ In a [OfString "cat"]).
Proof.
  intros H.
  destruct (H (OfString "cat")) as [_ Hin].
  assert (Hkept : In (OfString "cat")
                    (Eigenstates (EqualTo (sp (Any [OfString "cat"]))
                                    (sp (Any [OfString "cat"])))))
    by (apply Hin; split; now left).
  vm_compute in Hkept. exact Hkept.
Qed.

(** * Further properties of the package *)

(** ** Helpers on lists and operands *)

Lemma Superposition_eta (s : Superposition) :
  s = mkSuperposition (values s) (typ s).
Proof. now destruct s. Qed.

Lemma filter_subsequence {A : Type} (f : A -> bool) (l : list A) :
  subsequence (filter f l) l.
Proof.
  induction l as [|x l IH]; simpl; [constructor|].
  destruct (f x); now constructor.
Qed.

Lemma subsequence_length {A : Type} (l1 l2 : list A) :
  subsequence l1 l2 -> (List.length l1 <= List.length l2)%nat.
Proof. induction 1; simpl; lia. Qed.

Lemma subsequence_In {A : Type} (l1 l2 : list A) (x : A) :
  subsequence l1 l2 -> In x l1 -> In x l2.
Proof.
  induction 1 as [|y l1 l2 _ IH|y l1 l2 _ IH]; simpl; intros Hin.
  - exact Hin.
  - right. now apply IH.
  - destruct Hin as [->|Hin]; [now left | right; now apply IH].
Qed.

Lemma filter_idempotent {A : Type} (f : A -> bool) (l : list A) :
  filter f (filter f l) = filter f l.
Proof.
  induction l as [|x l IH]; simpl; [reflexivity|].
  destruct (f x) eqn:Hx; simpl; [now rewrite Hx, IH | exact IH].
Qed.

Lemma filter_commute {A : Type} (f g : A -> bool) (l : list A) :
  filter f (filter g l) = filter g (filter f l).
Proof.
  induction l as [|x l IH]; simpl; [reflexivity|].
  destruct (f x) eqn:Hf, (g x) eqn:Hg; simpl;
    rewrite ?Hf, ?Hg, IH; reflexivity.
Qed.

Lemma combineValues_operand (a a' b b' : value)
    (op : value -> value -> value * error) :
  extractValues a = extractValues a' -> extractValues b = extractValues b' ->
  combineValues a b op = combineValues a' b' op.
Proof. unfold combineValues. now intros -> ->. Qed.

Lemma compareValues_operand (a a' b b' : value)
    (comp : value -> value -> bool * error) :
  extractValues a = extractValues a' -> extractValues b = extractValues b' ->
  compareValues a b comp = compareValues a' b' comp.
Proof. unfold compareValues. now intros -> ->. Qed.

Lemma extractValues_scalar (v : value) :
  isScalar v = true -> extractValues v = extractValues (sp (Any [v])).
Proof. destruct v; try reflexivity. discriminate. Qed.

(** ** Sampling and display *)

Lemma index_in_range (vs : list value) (i : Z) :
  0 <= i < Z.of_nat (List.length vs) ->
  exists v, index vs i = Some v /\ In v vs.
Proof.
  intros Hi. unfold index.
  destruct (0 <=? i) eqn:H0; [|apply Z.leb_gt in H0; lia].
  destruct (i <? Z.of_nat (List.length vs)) eqn:H1;
    [|apply Z.ltb_ge in H1; lia].
  simpl.
  destruct (nth_error vs (Z.to_nat i)) as [v|] eqn:Hnth.
  - exists v. split; [reflexivity|]. eapply nth_error_In; eassumption.
  - apply nth_error_None in Hnth. lia.
Qed.

(** RandomValue returns nil for a superposition without values; otherwise
    it returns one of the eigenstates, whatever number the generator draws,
    and each eigenstate is returned for some draw. *)
Theorem RandomValue_eigenstate (Intn : Z -> Z) (s : Superposition) :
  (forall n, 0 < n -> 0 <= Intn n < n) ->
  (values s = [] -> RandomValue Intn s = Some Nil)
  /\ (values s <> [] ->
      exists v, RandomValue Intn s = Some v /\ In v (Eigenstates s))
  /\ (forall v, In v (Eigenstates s) ->
      exists r, 0 <= r < Z.of_nat (List.length (values s))
                /\ RandomValue (fun _ => r) s = Some v).
Proof.
  intros HIntn. unfold RandomValue, Eigenstates.
  split; [|split].
  - intros ->. reflexivity.
  - intros Hne.
    destruct (values s) as [|v0 vs] eqn:Hvs; [now elim Hne|].
    destruct (Z.of_nat (List.length (v0 :: vs)) =? 0) eqn:Hlen;
      [apply Z.eqb_eq in Hlen; simpl in Hlen; lia|].
    apply index_in_range. apply HIntn. simpl. lia.
  - intros v Hin.
    destruct (In_nth_error _ _ Hin) as [k Hk].
    assert (Hlt : (k < List.length (values s))%nat)
      by (apply nth_error_Some; congruence).
    exists (Z.of_nat k). split; [lia|].
    destruct (Z.of_nat (List.length (values s)) =? 0) eqn:Hlen;
      [apply Z.eqb_eq in Hlen; lia|].
    unfold index.
    destruct (0 <=? Z.of_nat k) eqn:H0; [|apply Z.leb_gt in H0; lia].
    destruct (Z.of_nat k <? Z.of_nat (List.length (values s))) eqn:H1;
      [|apply Z.ltb_ge in H1; lia].
    simpl. now rewrite Nat2Z.id.
Qed.

Lemma RandomValue_eigenstate_witness :
  exists v, RandomValue (fun n => n - 1) (Any (ints [7; 8; 9])) = Some v
            /\ In v (Eigenstates (Any (ints [7; 8; 9]))).
Proof.
  apply (proj1 (proj2 (RandomValue_eigenstate (fun n => n - 1)
                         (Any (ints [7; 8; 9])) ltac:(intros; lia)))).
  discriminate.
Defined.

(** String shows a superposition of exactly one value as the bare value,
    so that Any(v) and All(v) print alike; any other superposition prints
    its mode name before the bracketed values, so that Any and All of the
    same values print differently. *)
Theorem String_mode_unless_singleton (Sprint : value -> string)
    (vs : list value) :
  (forall v t, Superposition_String Sprint (mkSuperposition [v] t)
               = Some (Sprint v))
  /\ (List.length vs <> 1%nat ->
      Superposition_String Sprint (Any vs)
      = Some ("any(" ++ Sprint_slice Sprint vs ++ ")")%string
      /\ Superposition_String Sprint (All vs)
         = Some ("all(" ++ Sprint_slice Sprint vs ++ ")")%string)
  /\ (Superposition_String Sprint (Any vs)
      = Superposition_String Sprint (All vs)
      <-> List.length vs = 1%nat).
Proof.
  assert (Hmany : List.length vs <> 1%nat ->
            Superposition_String Sprint (Any vs)
            = Some ("any(" ++ Sprint_slice Sprint vs ++ ")")%string
            /\ Superposition_String Sprint (All vs)
               = Some ("all(" ++ Sprint_slice Sprint vs ++ ")")%string).
  { intros Hlen. unfold Superposition_String. simpl values.
    destruct (Z.of_nat (List.length vs) =? 1) eqn:H1;
      [apply Z.eqb_eq in H1; lia|].
    split; reflexivity. }
  split; [reflexivity | split; [exact Hmany|]].
  split.
  - intros Heq.
    destruct (Nat.eq_dec (List.length vs) 1) as [|Hne]; [assumption|].
    destruct (Hmany Hne) as [Hany Hall].
    rewrite Hany, Hall in Heq. simpl in Heq. discriminate.
  - intros Hlen. destruct vs as [|v [|v' vs]]; try discriminate.
    reflexivity.
Qed.

Lemma String_mode_unless_singleton_witness :
  Superposition_String (fun _ => "v"%string) (Any (ints [1; 2]))
  = Some "any([v v])"%string.
Proof.
  apply (proj1 (proj1 (proj2 (String_mode_unless_singleton
                                (fun _ => "v"%string) (ints [1; 2])))
                  ltac:(discriminate))).
Defined.

(** ** Structure of filtering results *)

Lemma filtering_typ_sp (o : Filtering) (s : Superposition) (y : value) :
  typ (filtering o (sp s) y) = typ s.
Proof. now rewrite filtering_typ. Qed.

(** A filtering operation only ever selects: its eigenstates are the left
    operand's values with some left out, in the same order; it adds no
    value and is never longer than the left operand. *)
Theorem filtering_selects (o : Filtering) (x y : value) :
  subsequence (Eigenstates (filtering o x y)) (operandValues x)
  /\ (forall a, In a (Eigenstates (filtering o x y)) ->
                In a (operandValues x))
  /\ (List.length (Eigenstates (filtering o x y))
      <= List.length (operandValues x))%nat.
Proof.
  assert (Hsub : subsequence (Eigenstates (filtering o x y))
                   (operandValues x)).
  { rewrite filtering_values. apply filter_subsequence. }
  split; [exact Hsub | split].
  - intros a. now apply subsequence_In.
  - now apply subsequence_length.
Qed.

(** Filtering a result again by the same operation and right operand
    changes nothing. *)
Theorem filtering_idempotent (o : Filtering) (x y : value) :
  filtering o (sp (filtering o x y)) y = filtering o x y.
Proof.
  rewrite (Superposition_eta (filtering o (sp (filtering o x y)) y)).
  rewrite (Superposition_eta (filtering o x y)) at 3.
  f_equal.
  - change (values ?s) with (Eigenstates s).
    rewrite (filtering_values o (sp (filtering o x y)) y).
    change (operandValues (sp (filtering o x y)))
      with (Eigenstates (filtering o x y)).
    rewrite (filtering_values o x y). apply filter_idempotent.
  - apply filtering_typ_sp.
Qed.

(** Two filters may be applied in either order: filtering by (o1, y1) and
    then by (o2, y2) gives the same superposition as the other order. *)
Theorem filtering_commutes (o1 o2 : Filtering) (x y1 y2 : value) :
  filtering o2 (sp (filtering o1 x y1)) y2
  = filtering o1 (sp (filtering o2 x y2)) y1.
Proof.
  rewrite (Superposition_eta (filtering o2 _ y2)).
  rewrite (Superposition_eta (filtering o1 (sp _) y1)).
  f_equal.
  - change (values ?s) with (Eigenstates s).
    rewrite (filtering_values o2 (sp (filtering o1 x y1)) y2).
    rewrite (filtering_values o1 (sp (filtering o2 x y2)) y1).
    change (operandValues (sp (filtering o1 x y1)))
      with (Eigenstates (filtering o1 x y1)).
    change (operandValues (sp (filtering o2 x y2)))
      with (Eigenstates (filtering o2 x y2)).
    rewrite (filtering_values o1 x y1), (filtering_values o2 x y2).
    apply filter_commute.
  - now rewrite !filtering_typ_sp, !filtering_typ.
Qed.

(** ** Scalars and one-valued operands *)

(** A bare scalar operand can be replaced by Any of that scalar, on either
    side of any operation, without changing the result. *)
Theorem scalar_is_singleton_any (v : value) :
  isScalar v = true ->
  (forall o y, arithmetic o v y = arithmetic o (sp (Any [v])) y)
  /\ (forall o x, arithmetic o x v = arithmetic o x (sp (Any [v])))
  /\ (forall o y, filtering o v y = filtering o (sp (Any [v])) y)
  /\ (forall o x, filtering o x v = filtering o x (sp (Any [v]))).
Proof.
  intros Hv. pose proof (extractValues_scalar v Hv) as He.
  repeat split; intros o z.
  - rewrite !arithmetic_unfold. f_equal. now apply combineValues_operand.
  - rewrite !arithmetic_unfold. f_equal. now apply combineValues_operand.
  - rewrite !filtering_unfold. f_equal. now apply compareValues_operand.
  - rewrite !filtering_unfold. f_equal. now apply compareValues_operand.
Qed.

Lemma scalar_is_singleton_any_witness :
  arithmetic OpAdd (int 1) (int 2) = arithmetic OpAdd (sp (Any [int 1])) (int 2).
Proof.
  apply (proj1 (scalar_is_singleton_any (int 1) eq_refl)).
Defined.

(** With a right operand of exactly one value the mode of the right operand
    makes no difference to a filter: All(b) and Any(b) select the same
    values. *)
Theorem filtering_single_right_value (o : Filtering) (x b : value) :
  filtering o x (sp (All [b])) = filtering o x (sp (Any [b])).
Proof.
  rewrite (Superposition_eta (filtering o x (sp (All [b])))).
  rewrite (Superposition_eta (filtering o x (sp (Any [b])))).
  f_equal.
  - change (values ?s) with (Eigenstates s).
    rewrite !filtering_values. apply filter_ext. intros a.
    change (operandValues (sp (All [b]))) with [b].
    change (operandValues (sp (Any [b]))) with [b].
    change (operandMode (sp (All [b]))) with Conjunctive.
    change (operandMode (sp (Any [b]))) with Disjunctive.
    simpl. now destruct (filteringValues o a b) as [[|] [msg|]].
  - now rewrite !filtering_typ.
Qed.

(** The membership idiom: for a bare scalar x, EqualTo(x, Any(B)).IsTrue()
    says whether x is numerically equal to some value of B, and the result
    then holds x itself. *)
Theorem EqualTo_any_membership (x : value) (B : list value) :
  isScalar x = true ->
  IsTrue (EqualTo x (sp (Any B))) = existsb (numericallyEqual x) B
  /\ Eigenstates (EqualTo x (sp (Any B)))
     = if existsb (numericallyEqual x) B then [x] else [].
Proof.
  intros Hx.
  assert (Hv : Eigenstates (EqualTo x (sp (Any B)))
               = if existsb (numericallyEqual x) B then [x] else []).
  { change (EqualTo x (sp (Any B)))
      with (filtering OpEqualTo x (sp (Any B))).
    rewrite filtering_values.
    replace (operandValues x) with [x]
      by (destruct x; try reflexivity; discriminate).
    change (operandMode (sp (Any B))) with Disjunctive.
    change (operandValues (sp (Any B))) with B.
    change (filteringValues OpEqualTo) with equalToValues.
    simpl. rewrite compareInner_disjunctive, orb_false_r.
    replace (existsb (holds equalToValues x) B)
      with (existsb (numericallyEqual x) B); [reflexivity|].
    induction B as [|b B IH]; cbn [existsb]; [reflexivity|].
    now rewrite IH, holds_equalTo. }
  split; [|exact Hv].
  unfold IsTrue. unfold Eigenstates in Hv. rewrite Hv.
  now destruct (existsb (numericallyEqual x) B).
Qed.

Lemma EqualTo_any_membership_witness :
  IsTrue (EqualTo (int 5) (sp (Any (ints [3; 4; 5]))))
  = existsb (numericallyEqual (int 5)) (ints [3; 4; 5]).
Proof.
  apply (proj1 (EqualTo_any_membership (int 5) (ints [3; 4; 5]) eq_refl)).
Defined.

(** ** How many results an arithmetic operation has *)

Lemma successful_length (op : value -> value -> value * error)
    (p : value * value) :
  (List.length (successful op p) <= 1)%nat.
Proof.
  unfold successful.
  destruct (op (fst p) (snd p)) as [res [msg|]]; simpl; lia.
Qed.

Lemma flat_map_length_le {A B : Type} (f : A -> list B) (l : list A) :
  (forall p, List.length (f p) <= 1)%nat ->
  (List.length (flat_map f l) <= List.length l)%nat.
Proof.
  intros Hf. induction l as [|p l IH]; simpl; [lia|].
  rewrite length_app. specialize (Hf p). lia.
Qed.

Lemma unrestricted_excluded (o : Arithmetic) (a b : value) :
  unrestricted o = true ->
  excluded o a b = negb (coerces a && coerces b).
Proof.
  intros Ho. unfold excluded.
  replace (zeroDivisor o b) with false by (destruct o; try reflexivity;
                                           discriminate).
  now destruct (coerces a), (coerces b).
Qed.

Lemma crossResults_row_count (o : Arithmetic) (a : value) (B : list value) :
  unrestricted o = true ->
  List.length (flat_map (successful (arithmeticValues o))
                 (map (fun b => (a, b)) B))
  = if coerces a then List.length (coercible B) else 0%nat.
Proof.
  intros Ho. induction B as [|b B IH]; simpl.
  - now destruct (coerces a).
  - rewrite length_app, IH, successful_excluded.
    cbn [fst snd]. rewrite (unrestricted_excluded o a b Ho).
    destruct (coerces a), (coerces b); reflexivity.
Qed.

Lemma crossResults_count (o : Arithmetic) (A B : list value) :
  unrestricted o = true ->
  List.length (crossResults (arithmeticValues o) A B)
  = (List.length (coercible A) * List.length (coercible B))%nat.
Proof.
  intros Ho. unfold crossResults.
  induction A as [|a A IH]; simpl; [reflexivity|].
  rewrite flat_map_app, length_app, IH, crossResults_row_count by exact Ho.
  destruct (coerces a); simpl; lia.
Qed.

Lemma arithmetic_results_coerce (o : Arithmetic) (x y : value) :
  Forall (fun v => coerces v = true) (Eigenstates (arithmetic o x y)).
Proof.
  rewrite arithmetic_values. unfold crossResults.
  induction (list_prod (operandValues x) (operandValues y)) as [|p ps IH];
    simpl; [constructor|].
  apply Forall_app. split; [|exact IH].
  eapply Forall_impl; [|apply successful_isFloat64].
  intros v [f ->]. reflexivity.
Qed.

Lemma coercible_all (l : list value) :
  Forall (fun v => coerces v = true) l -> coercible l = l.
Proof.
  induction 1 as [|v l Hv _ IH]; simpl; [reflexivity|].
  now rewrite Hv, IH.
Qed.

(** An arithmetic result never has more values than there are pairs; for
    Add, Subtract and Multiply it has exactly one value for each pair of
    values that both coerce, so its length is the product of the numbers of
    coercible values of the two operands. *)
Theorem arithmetic_result_length (o : Arithmetic) (x y : value) :
  (List.length (Eigenstates (arithmetic o x y))
   <= List.length (operandValues x) * List.length (operandValues y))%nat
  /\ (unrestricted o = true ->
      List.length (Eigenstates (arithmetic o x y))
      = (List.length (coercible (operandValues x))
         * List.length (coercible (operandValues y)))%nat).
Proof.
  rewrite arithmetic_values. split.
  - rewrite <- length_prod. unfold crossResults.
    apply flat_map_length_le. intros p. apply successful_length.
  - apply crossResults_count.
Qed.

Lemma arithmetic_result_length_witness :
  List.length
    (Eigenstates (arithmetic OpMultiply
                    (sp (Any [int 1; OfString "two"; int 3]))
                    (sp (All [int 4; OfBool true]))))
  = 2%nat.
Proof.
  apply (proj2 (arithmetic_result_length OpMultiply
                  (sp (Any [int 1; OfString "two"; int 3]))
                  (sp (All [int 4; OfBool true])))).
  reflexivity.
Defined.

(** Operations compose: every value of an arithmetic result coerces, so
    when a result is the left operand of Add, Subtract or Multiply each of
    its values is paired with every coercible value of the right operand;
    and the chain is Conjunctive exactly when one of the three operands
    is. *)
Theorem arithmetic_chain (o1 o2 : Arithmetic) (x y z : value) :
  Forall (fun v => coerces v = true) (Eigenstates (arithmetic o1 x y))
  /\ (typ (arithmetic o2 (sp (arithmetic o1 x y)) z) = Conjunctive
      <-> operandMode x = Conjunctive \/ operandMode y = Conjunctive
          \/ operandMode z = Conjunctive)
  /\ (unrestricted o2 = true ->
      List.length (Eigenstates (arithmetic o2 (sp (arithmetic o1 x y)) z))
      = (List.length (Eigenstates (arithmetic o1 x y))
         * List.length (coercible (operandValues z)))%nat).
Proof.
  split; [apply arithmetic_results_coerce | split].
  - rewrite arithmetic_typ_conjunctive.
    change (operandMode (sp (arithmetic o1 x y)))
      with (typ (arithmetic o1 x y)).
    rewrite arithmetic_typ_conjunctive. tauto.
  - intros Ho. rewrite arithmetic_values, crossResults_count by exact Ho.
    change (operandValues (sp (arithmetic o1 x y)))
      with (Eigenstates (arithmetic o1 x y)).
    now rewrite (coercible_all _ (arithmetic_results_coerce o1 x y)).
Qed.

Lemma arithmetic_chain_witness :
  List.length
    (Eigenstates (arithmetic OpAdd
                    (sp (arithmetic OpDivide (sp (Any (ints [1; 2])))
                           (sp (Any (ints [0; 2])))))
                    (sp (All [int 10; OfString "x"; int 20]))))
  = Nat.mul
      (List.length
         (Eigenstates (arithmetic OpDivide (sp (Any (ints [1; 2])))
                         (sp (Any (ints [0; 2]))))))
      (List.length (coercible [int 10; OfString "x"; int 20])).
Proof.
  apply (proj2 (proj2 (arithmetic_chain OpDivide OpAdd
                         (sp (Any (ints [1; 2]))) (sp (Any (ints [0; 2])))
                         (sp (All [int 10; OfString "x"; int 20]))))).
  reflexivity.
Defined.

(** ** Division by zero *)

Lemma flat_map_nil {A B : Type} (f : A -> list B) (l : list A) :
  (forall p, In p l -> f p = []) -> flat_map f l = [].
Proof.
  induction l as [|p l IH]; intros Hf; simpl; [reflexivity|].
  rewrite (Hf p (or_introl eq_refl)), IH; [reflexivity|].
  intros q Hq. apply Hf. now right.
Qed.

Lemma IsTrue_nil (s : Superposition) : Eigenstates s = [] -> IsTrue s = false.
Proof. unfold IsTrue, Eigenstates. now intros ->. Qed.

(** Divide and Modulo by a right operand all of whose values are zero or
    fail to coerce give the empty superposition, which IsTrue reports as
    false: a division by zero shows only as an empty result. *)
Theorem division_by_zero_is_empty (o : Arithmetic) (x y : value) :
  unrestricted o = false ->
  (forall b, In b (operandValues y) ->
             coerces b = false \/ (coerced b =? 0)%float = true) ->
  Eigenstates (arithmetic o x y) = []
  /\ IsTrue (arithmetic o x y) = false.
Proof.
  intros Ho Hzero.
  assert (Hnil : Eigenstates (arithmetic o x y) = []).
  { rewrite arithmetic_values. unfold crossResults.
    apply flat_map_nil. intros [a b] Hin.
    apply in_prod_iff in Hin. destruct Hin as [_ Hb].
    rewrite successful_excluded. cbn [fst snd].
    unfold excluded, zeroDivisor.
    destruct (Hzero b Hb) as [Hc|Hz].
    - rewrite Hc. cbn [negb]. now rewrite orb_true_r.
    - destruct o; try discriminate; now rewrite Hz, orb_true_r. }
  split; [exact Hnil | now apply IsTrue_nil].
Qed.

Lemma division_by_zero_is_empty_witness :
  Eigenstates (arithmetic OpDivide (sp (Any (ints [1; 2; 3])))
                 (sp (All [int 0; OfFloat64 (-0); OfString "zero"])))
  = []
  /\ IsTrue (arithmetic OpModulo (int 7) (int 0)) = false.
Proof.
  split.
  - refine (proj1 (division_by_zero_is_empty OpDivide
                     (sp (Any (ints [1; 2; 3])))
                     (sp (All [int 0; OfFloat64 (-0); OfString "zero"]))
                     eq_refl _)).
    intros b Hb. simpl in Hb.
    destruct Hb as [<-|[<-|[<-|[]]]];
      [right; reflexivity | right; reflexivity | left; reflexivity].
  - refine (proj2 (division_by_zero_is_empty OpModulo (int 7) (int 0)
                     eq_refl _)).
    intros b Hb. simpl in Hb. destruct Hb as [<-|[]].
    right. reflexivity.
Defined.

(** ** The primality example *)

(** isPrime answers true for every n above 1, prime or not, and false
    otherwise: its divisors never accumulate, so the Modulo result is
    always empty. *)
Theorem isPrime_only_tests_size (n : Z) :
  isPrime n = (1 <? n)
  /\ isPrime 4 = true.
Proof.
  split.
  - destruct (1 <? n) eqn:Hn.
    + apply isPrime_always_true. now apply Z.ltb_lt.
    + apply Z.ltb_ge in Hn. unfold isPrime.
      destruct (n <=? 1) eqn:Hle; [reflexivity|].
      apply Z.leb_gt in Hle. lia.
  - apply isPrime_always_true. lia.
Qed.

(** ** Conjunctive right operands, as the code treats them *)

Lemma filter_subsequence_impl {A : Type} (f g : A -> bool) (l : list A) :
  (forall a, f a = true -> g a = true) ->
  subsequence (filter f l) (filter g l).
Proof.
  intros Hfg. induction l as [|a l IH]; simpl; [constructor|].
  destruct (f a) eqn:Hf.
  - rewrite (Hfg a Hf). now constructor.
  - destruct (g a); [now constructor | exact IH].
Qed.

Lemma firstVerdict_true_holds (comp : value -> value -> bool * error)
    (a : value) (B : list value) :
  firstVerdict comp a B = Some true -> existsb (holds comp a) B = true.
Proof.
  induction B as [|b B IH]; simpl; [discriminate|].
  unfold holds.
  destruct (verdict comp a b) as [[|]|]; intros H;
    [reflexivity | discriminate | now apply IH].
Qed.

Lemma kept_conjunctive_kept_disjunctive
    (comp : value -> value -> bool * error) (a : value) (B : list value) :
  compareInner comp Conjunctive a B false = true ->
  compareInner comp Disjunctive a B false = true.
Proof.
  rewrite compareInner_conjunctive, compareInner_disjunctive, orb_false_r.
  destruct (firstVerdict comp a B) as [[|]|] eqn:Hf; try discriminate.
  intros _. now apply firstVerdict_true_holds.
Qed.

(** What a filter against All(B) keeps lies between the universal and the
    existential reading: a left value for which the predicate holds
    against every value of a non-empty B is kept, and every value kept
    against All(B) is also kept against Any(B), in the same order. *)
Theorem conjunctive_filter_bounds (o : Filtering) (x : value)
    (B : list value) :
  subsequence (Eigenstates (filtering o x (sp (All B))))
    (Eigenstates (filtering o x (sp (Any B))))
  /\ (forall a,
        In a (operandValues x) -> B <> [] ->
        (forall b, In b B -> holds (filteringValues o) a b = true) ->
        In a (Eigenstates (filtering o x (sp (All B))))).
Proof.
  rewrite !filtering_values.
  change (operandValues (sp (All B))) with B.
  change (operandValues (sp (Any B))) with B.
  change (operandMode (sp (All B))) with Conjunctive.
  change (operandMode (sp (Any B))) with Disjunctive.
  split.
  - apply filter_subsequence_impl. intros a.
    apply kept_conjunctive_kept_disjunctive.
  - intros a Ha HB Hall. apply filter_In. split; [exact Ha|].
    destruct B as [|b B]; [now elim HB|].
    apply compareInner_stops. apply Hall. now left.
Qed.

Lemma conjunctive_filter_bounds_witness :
  In (int 1)
    (Eigenstates (filtering OpLessThan (sp (Any (ints [1; 9])))
                    (sp (All (ints [5; 6]))))).
Proof.
  apply (proj2 (conjunctive_filter_bounds OpLessThan
                  (sp (Any (ints [1; 9]))) (ints [5; 6])) (int 1)).
  - now left.
  - discriminate.
  - intros b Hb. simpl in Hb. destruct Hb as [<-|[<-|[]]]; reflexivity.
Defined.

(** ** Commutativity *)


Lemma SFadd_comm (x y : spec_float) :
  SFadd prec emax x y = SFadd prec emax y x.
Proof.
  destruct x as [sx|sx| |sx mx ex], y as [sy|sy| |sy my ey];
    try reflexivity;
    try (destruct sx, sy; reflexivity).
  unfold SFadd. now rewrite Z.min_comm, Z.add_comm.
Qed.

Lemma SFmul_comm (x y : spec_float) :
  SFmul prec emax x y = SFmul prec emax y x.
Proof.
  destruct x as [sx|sx| |sx mx ex], y as [sy|sy| |sy my ey];
    try reflexivity;
    try (destruct sx, sy; reflexivity).
  unfold SFmul. now rewrite xorb_comm, Pos.mul_comm, Z.add_comm.
Qed.

Lemma float_add_comm (a b : float) : (a + b = b + a)%float.
Proof.
  rewrite <- (SF2Prim_Prim2SF (a + b)), <- (SF2Prim_Prim2SF (b + a)).
  rewrite !add_spec. unfold SF64add. now rewrite SFadd_comm.
Qed.

Lemma float_mul_comm (a b : float) : (a * b = b * a)%float.
Proof.
  rewrite <- (SF2Prim_Prim2SF (a * b)), <- (SF2Prim_Prim2SF (b * a)).
  rewrite !mul_spec. unfold SF64mul. now rewrite SFmul_comm.
Qed.

Lemma arithmeticValues_comm (o : Arithmetic) (a b : value) :
  commutative o = true -> arithmeticValues o a b = arithmeticValues o b a.
Proof.
  intros Ho.
  destruct o; try discriminate;
    unfold arithmeticValues, addValues, mulValues, performArithmetic;
    destruct (getNumericValue a) as [aVal aKind];
    destruct (getNumericValue b) as [bVal bKind];
    destruct (reflect.Kind_eqb aKind reflect.Invalid);
    destruct (reflect.Kind_eqb bKind reflect.Invalid); try reflexivity;
    cbn [orb]; [now rewrite float_add_comm | now rewrite float_mul_comm].
Qed.

Lemma flat_map_app_perm {A B : Type} (f g : A -> list B) (l : list A) :
  Permutation (flat_map (fun x => f x ++ g x) l)
    (flat_map f l ++ flat_map g l).
Proof.
  induction l as [|x l IH]; simpl; [constructor|].
  rewrite IH, <- !app_assoc. apply Permutation_app_head.
  rewrite !app_assoc. apply Permutation_app_tail.
  apply Permutation_app_comm.
Qed.

Lemma flat_map_swap_perm {A B C : Type} (g : A -> B -> list C)
    (l1 : list A) (l2 : list B) :
  Permutation (flat_map (fun a => flat_map (fun b => g a b) l2) l1)
    (flat_map (fun b => flat_map (fun a => g a b) l1) l2).
Proof.
  induction l1 as [|a l1 IH]; simpl.
  - induction l2 as [|b l2 IH2]; simpl; [constructor | exact IH2].
  - rewrite IH. symmetry.
    apply (flat_map_app_perm (fun b => g a b)
             (fun b => flat_map (fun a' => g a' b) l1)).
Qed.

Lemma crossResults_nested (op : value -> value -> value * error)
    (A B : list value) :
  crossResults op A B
  = flat_map (fun a => flat_map (fun b => successful op (a, b)) B) A.
Proof.
  unfold crossResults.
  induction A as [|a A IH]; simpl; [reflexivity|].
  now rewrite flat_map_app, IH, flat_map_pairs.
Qed.

Lemma crossResults_comm (op : value -> value -> value * error)
    (A B : list value) :
  (forall a b, op a b = op b a) ->
  Permutation (crossResults op A B) (crossResults op B A).
Proof.
  intros Hop. rewrite !crossResults_nested.
  rewrite (flat_map_swap_perm (fun a b => successful op (a, b)) A B).
  apply Permutation_refl'.
  apply flat_map_ext. intros b. apply flat_map_ext. intros a.
  unfold successful. cbn [fst snd]. now rewrite Hop.
Qed.

(** Add and Multiply are commutative: swapping the operands gives the same
    eigenstates up to their order (the scan is a-major) and the same mode;
    for two bare scalars the result is the same superposition. *)
Theorem add_multiply_commute (o : Arithmetic) (x y : value) :
  commutative o = true ->
  Permutation (Eigenstates (arithmetic o x y))
    (Eigenstates (arithmetic o y x))
  /\ typ (arithmetic o x y) = typ (arithmetic o y x)
  /\ (isScalar x = true -> isScalar y = true ->
      arithmetic o x y = arithmetic o y x).
Proof.
  intros Ho.
  assert (Hperm : Permutation (Eigenstates (arithmetic o x y))
                    (Eigenstates (arithmetic o y x))).
  { rewrite !arithmetic_values. apply crossResults_comm.
    intros a b. now apply arithmeticValues_comm. }
  assert (Htyp : typ (arithmetic o x y) = typ (arithmetic o y x)).
  { rewrite !arithmetic_typ. now rewrite orb_comm. }
  split; [exact Hperm | split; [exact Htyp|]].
  intros Hx Hy.
  rewrite (Superposition_eta (arithmetic o x y)).
  rewrite (Superposition_eta (arithmetic o y x)).
  rewrite Htyp. f_equal.
  change (values ?s) with (Eigenstates s).
  rewrite !arithmetic_values.
  replace (operandValues x) with [x]
    by (destruct x; try reflexivity; discriminate).
  replace (operandValues y) with [y]
    by (destruct y; try reflexivity; discriminate).
  unfold crossResults, successful. simpl.
  now rewrite (arithmeticValues_comm o x y Ho).
Qed.

Lemma add_multiply_commute_witness :
  Permutation
    (Eigenstates (arithmetic OpAdd (sp (Any (ints [1; 2; 3])))
                    (sp (All (ints [4; 5])))))
    (Eigenstates (arithmetic OpAdd (sp (All (ints [4; 5])))
                    (sp (Any (ints [1; 2; 3]))))).
Proof.
  apply (proj1 (add_multiply_commute OpAdd (sp (Any (ints [1; 2; 3])))
                  (sp (All (ints [4; 5]))) eq_refl)).
Defined.

(** ** Filters on integers *)

Lemma digits2_pos_lt (p q : positive) :
  (digits2_pos p < digits2_pos q)%positive -> (p < q)%positive.
Proof.
  revert q. induction p as [p IH|p IH|]; intros [q|q|]; simpl; intros H;
    try lia;
    try (assert (p < q)%positive by (apply IH; lia); lia).
Qed.

Lemma compare_iter_xO (k p q : positive) :
  (Pos.iter xO p k ?= Pos.iter xO q k)%positive = (p ?= q)%positive.
Proof.
  induction k as [|k IH] using Pos.peano_ind.
  - reflexivity.
  - rewrite !Pos.iter_succ. exact IH.
Qed.

Lemma exact_compare (p q : positive) :
  match exactExponent p ?= exactExponent q with
  | Eq => Pos.compare_cont Eq (exactMantissa p) (exactMantissa q)
  | c => c
  end = (p ?= q)%positive.
Proof.
  unfold exactExponent at 1 2.
  destruct (Pos.compare_spec (digits2_pos p) (digits2_pos q)) as [He|Hlt|Hgt].
  - rewrite He, Z.compare_refl.
    unfold exactMantissa, exactExponent. rewrite He.
    destruct (Zpos (digits2_pos q) - 53) as [|k|k]; try reflexivity.
    apply compare_iter_xO.
  - replace (Zpos (digits2_pos p) - 53 ?= Zpos (digits2_pos q) - 53) with Lt
      by (symmetry; apply Z.compare_lt_iff; lia).
    symmetry. apply Pos.compare_lt_iff. now apply digits2_pos_lt.
  - replace (Zpos (digits2_pos p) - 53 ?= Zpos (digits2_pos q) - 53) with Gt
      by (symmetry; apply Z.compare_gt_iff; lia).
    symmetry. apply Pos.compare_gt_iff. now apply digits2_pos_lt.
Qed.

Lemma SFcompare_exactFloat (a b : Z) :
  SFcompare (exactFloat a) (exactFloat b) = Some (a ?= b).
Proof.
  destruct a as [|p|p], b as [|q|q]; try reflexivity; simpl; f_equal.
  - apply exact_compare.
  - pose proof (exact_compare p q) as H.
    destruct (exactExponent p ?= exactExponent q);
      rewrite <- H; try reflexivity.
Qed.

Lemma float64_of_Z_ltb (a b : Z) :
  exactInt a -> exactInt b ->
  (float64_of_Z a <? float64_of_Z b)%float = (a <? b).
Proof.
  intros Ha Hb.
  rewrite ltb_spec, !Prim2SF_float64_of_Z by assumption.
  unfold SFltb. rewrite SFcompare_exactFloat. unfold Z.ltb.
  now destruct (a ?= b).
Qed.

Lemma holds_ints (o : Filtering) (a b : Z) :
  exactInt a -> exactInt b ->
  holds (filteringValues o) (int a) (int b) = integerRelation o a b.
Proof.
  intros Ha Hb. unfold holds, verdict. rewrite filteringValues_unfold.
  change (coerces (int a)) with true. change (coerces (int b)) with true.
  change (coerced (int a)) with (float64_of_Z a).
  change (coerced (int b)) with (float64_of_Z b).
  cbn [andb].
  destruct o; cbn [integerRelation];
    rewrite ?float64_of_Z_ltb, ?float64_of_Z_eqb by assumption.
  - now destruct (a <? b).
  - now destruct (b <? a).
  - now destruct (a =? b).
Qed.

(** On Go ints below 2^53 in magnitude the filters decide by the integer
    order: against Any(B), LessThan, GreaterThan and EqualTo keep the values
    of A that are less than, greater than or equal to some value of B. *)
Theorem filtering_ints (o : Filtering) (t : SuperpositionType)
    (A B : list Z) :
  Forall exactInt A -> Forall exactInt B ->
  Eigenstates (filtering o (sp (mkSuperposition (ints A) t))
                 (sp (Any (ints B))))
  = ints (filter (fun a => existsb (integerRelation o a) B) A).
Proof.
  intros HA HB.
  rewrite filtering_values.
  change (operandValues (sp (Any (ints B)))) with (ints B).
  change (operandMode (sp (Any (ints B)))) with Disjunctive.
  change (operandValues (sp (mkSuperposition (ints A) t))) with (ints A).
  unfold ints.
  induction HA as [|a A Ha HA IH]; simpl; [reflexivity|].
  rewrite compareInner_disjunctive, orb_false_r, IH.
  replace (existsb (holds (filteringValues o) (int a)) (map int B))
    with (existsb (integerRelation o a) B).
  - now destruct (existsb (integerRelation o a) B).
  - clear IH. induction HB as [|b B Hb HB IHB]; simpl; [reflexivity|].
    now rewrite IHB, holds_ints.
Qed.

Lemma filtering_ints_witness :
  Eigenstates (filtering OpLessThan (sp (mkSuperposition (ints [1; 7; 3]) Conjunctive))
                 (sp (Any (ints [2; 4]))))
  = ints [1; 3].
Proof.
  apply (filtering_ints OpLessThan Conjunctive [1; 7; 3] [2; 4]);
    repeat constructor.
Defined.

(** ** Arithmetic on integers

    Sums, differences and products of integers below 2^53 are computed
    without rounding as long as the result stays below 2^53. *)

Lemma iter_xO_value (p k : positive) :
  Zpos (Pos.iter xO p k) = Zpos p * 2 ^ Zpos k.
Proof.
  induction k as [|k IH] using Pos.peano_ind.
  - simpl. lia.
  - rewrite Pos.iter_succ, Pos2Z.inj_xO, IH, Pos2Z.inj_succ, Z.pow_succ_r
      by lia. lia.
Qed.

Lemma pos_shifted (m n k : positive) :
  Zpos m = Zpos n * 2 ^ Zpos k -> m = Pos.iter xO n k.
Proof.
  intros H. rewrite <- iter_xO_value in H. now injection H.
Qed.

Lemma exactMantissa_value (n : positive) :
  Zpos (digits2_pos n) <= 53 ->
  Zpos (exactMantissa n) = Zpos n * 2 ^ (- exactExponent n).
Proof.
  intros Hd. unfold exactMantissa.
  assert (He : exactExponent n <= 0) by (unfold exactExponent; lia).
  destruct (exactExponent n) as [|k|k]; cbv iota; try lia.
  apply iter_xO_value.
Qed.

Lemma iter_pos_swap {A : Type} (f : A -> A) (k : positive) (x : A) :
  iter_pos f k (f x) = f (iter_pos f k x).
Proof.
  revert x. induction k as [k IH|k IH|]; intros x; simpl;
    [now rewrite !IH | now rewrite !IH | reflexivity].
Qed.

Lemma iter_pos_succ {A : Type} (f : A -> A) (k : positive) (x : A) :
  iter_pos f (Pos.succ k) x = iter_pos f k (f x).
Proof.
  revert x. induction k as [k IH|k IH|]; intros x; simpl.
  - rewrite !IH. now rewrite !iter_pos_swap.
  - reflexivity.
  - reflexivity.
Qed.

Lemma shr_exact (k m : positive) :
  iter_pos shr_1 k (Build_shr_record (Zpos (Pos.iter xO m k)) false false)
  = Build_shr_record (Zpos m) false false.
Proof.
  induction k as [|k IH] using Pos.peano_ind.
  - reflexivity.
  - rewrite iter_pos_succ, Pos.iter_succ. exact IH.
Qed.

Lemma pow2_split (i j : Z) : 0 <= i -> 0 <= j -> 2 ^ (i + j) = 2 ^ i * 2 ^ j.
Proof. intros. now apply Z.pow_add_r. Qed.

Lemma pos_scaled (m m0 : positive) (k : Z) :
  0 <= k -> Zpos m = Zpos m0 * 2 ^ k ->
  match k with
  | Zpos d => m = Pos.iter xO m0 d
  | _ => m = m0
  end.
Proof.
  intros Hk H. destruct k as [|d|d]; [|now apply pos_shifted|lia].
  rewrite Z.pow_0_r in H. assert (E : Zpos m = Zpos m0) by lia.
  now injection E.
Qed.

(** Rounding a mantissa that holds the integer [n] shifted left, at an
    exponent that undoes the shift, gives the representation of [n]. *)
Lemma shr_fexp_exact (n m : positive) (e : Z) :
  Zpos n < 2 ^ 53 -> e <= exactExponent n ->
  Zpos m = Zpos n * 2 ^ (- e) ->
  shr_fexp prec emax (Zpos m) e loc_Exact
  = (Build_shr_record (Zpos (exactMantissa n)) false false, exactExponent n).
Proof.
  intros Hn He Hm.
  pose proof (digits2_pos_bound n Hn) as Hd.
  pose proof (exactMantissa_digits n Hd) as Hm0.
  pose proof (exactMantissa_value n Hd) as Hv.
  assert (He0 : -52 <= exactExponent n <= 0) by (unfold exactExponent; lia).
  assert (Hscaled : Zpos m
                    = Zpos (exactMantissa n) * 2 ^ (exactExponent n - e)).
  { rewrite Hv, <- Z.mul_assoc, <- pow2_split by lia.
    rewrite Hm. do 2 f_equal. lia. }
  apply pos_scaled in Hscaled; [|lia].
  unfold shr_fexp, Zdigits2.
  destruct (exactExponent n - e) as [|d|d] eqn:Hk; try lia.
  - subst m. rewrite Hm0.
    replace e with (exactExponent n) by lia.
    rewrite fexp_normal by lia.
    replace (53 + exactExponent n - 53 - exactExponent n) with 0 by lia.
    reflexivity.
  - subst m. rewrite digits2_pos_iter_xO, Hm0.
    rewrite fexp_normal by lia.
    replace (Zpos (53 + d) + e - 53 - e) with (Zpos d) by lia.
    cbn [shr shr_record_of_loc]. rewrite shr_exact.
    f_equal. lia.
Qed.

Lemma binary_round_aux_exact (s : bool) (n m : positive) (e : Z) :
  Zpos n < 2 ^ 53 -> e <= exactExponent n ->
  Zpos m = Zpos n * 2 ^ (- e) ->
  binary_round_aux prec emax s (Zpos m) e loc_Exact
  = S754_finite s (exactMantissa n) (exactExponent n).
Proof.
  intros Hn He Hm.
  pose proof (digits2_pos_bound n Hn) as Hd.
  assert (He0 : -52 <= exactExponent n <= 0) by (unfold exactExponent; lia).
  unfold binary_round_aux.
  rewrite (shr_fexp_exact n m e Hn He Hm).
  cbn [shr_m loc_of_shr_record round_nearest_even].
  rewrite (shr_fexp_exact n (exactMantissa n) (exactExponent n) Hn);
    [|lia | now apply exactMantissa_value].
  cbn [shr_m].
  destruct (exactExponent n <=? emax - prec) eqn:Hle; [reflexivity|].
  apply Z.leb_gt in Hle. unfold emax, prec in Hle. lia.
Qed.

Lemma digits2_pos_scaled (n m : positive) (j : Z) :
  0 <= j -> Zpos m = Zpos n * 2 ^ j ->
  Zpos (digits2_pos m) = Zpos (digits2_pos n) + j.
Proof.
  intros Hj Hm. apply pos_scaled in Hm; [|exact Hj].
  destruct j as [|d|d]; try lia; subst m.
  - lia.
  - rewrite digits2_pos_iter_xO. lia.
Qed.

Lemma binary_round_scaled (s : bool) (n m : positive) (e : Z) :
  Zpos n < 2 ^ 53 -> e <= 0 -> Zpos m = Zpos n * 2 ^ (- e) ->
  binary_round prec emax s m e
  = S754_finite s (exactMantissa n) (exactExponent n).
Proof.
  intros Hn He Hm.
  pose proof (digits2_pos_bound n Hn) as Hd.
  assert (He0 : -52 <= exactExponent n <= 0) by (unfold exactExponent; lia).
  unfold binary_round.
  rewrite (digits2_pos_scaled n m (- e)) by (lia || assumption).
  replace (Zpos (digits2_pos n) + - e + e) with (Zpos (digits2_pos n)) by lia.
  rewrite fexp_normal by lia. fold (exactExponent n).
  unfold shl_align.
  destruct (exactExponent n - e) as [|d|d] eqn:Hk.
  - apply binary_round_aux_exact; (lia || assumption).
  - apply binary_round_aux_exact; (lia || assumption).
  - apply binary_round_aux_exact; [assumption | lia |].
    rewrite iter_xO_value, Hm, <- Z.mul_assoc, <- pow2_split by lia.
    do 2 f_equal. lia.
Qed.

Lemma binary_normalize_scaled (z e : Z) :
  exactInt z -> e <= 0 ->
  binary_normalize prec emax (z * 2 ^ (- e)) e false = exactFloat z.
Proof.
  intros Hz He. unfold exactInt in Hz.
  assert (Hpow : 0 < 2 ^ (- e)) by (apply Z.pow_pos_nonneg; lia).
  destruct z as [|n|n].
  - reflexivity.
  - destruct (Zpos n * 2 ^ (- e)) as [|m|m] eqn:Hm; try lia.
    simpl. apply binary_round_scaled; (lia || assumption || (simpl in Hz; lia)).
  - destruct (Zneg n * 2 ^ (- e)) as [|m|m] eqn:Hm; try lia.
    simpl. apply binary_round_scaled; [simpl in Hz; lia | lia | lia].
Qed.

(** Aligning the representation of [p] to a smaller exponent [ez] shifts
    its mantissa to [p * 2^(-ez)]. *)
Lemma exact_aligned (p : positive) (ez : Z) :
  Zpos p < 2 ^ 53 -> ez <= exactExponent p ->
  Zpos (fst (shl_align (exactMantissa p) (exactExponent p) ez))
  = Zpos p * 2 ^ (- ez).
Proof.
  intros Hp He.
  pose proof (digits2_pos_bound p Hp) as Hd.
  pose proof (exactMantissa_value p Hd) as Hv.
  assert (He0 : -52 <= exactExponent p <= 0) by (unfold exactExponent; lia).
  unfold shl_align.
  destruct (ez - exactExponent p) as [|d|d] eqn:Hk; try lia; cbn [fst].
  - rewrite Hv. do 2 f_equal. lia.
  - rewrite iter_xO_value, Hv, <- Z.mul_assoc, <- pow2_split by lia.
    do 2 f_equal. lia.
Qed.

Lemma exactInt_pos (s : bool) (p : positive) :
  exactInt (if s then Zneg p else Zpos p) -> Zpos p < 2 ^ 53.
Proof. unfold exactInt. destruct s; simpl; lia. Qed.

Lemma exactFloat_signed (s : bool) (p : positive) :
  exactFloat (if s then Zneg p else Zpos p)
  = S754_finite s (exactMantissa p) (exactExponent p).
Proof. now destruct s. Qed.

Lemma cond_Zopp_signed (s : bool) (p : positive) (k : Z) :
  cond_Zopp s (Zpos p * k) = (if s then Zneg p else Zpos p) * k.
Proof.
  unfold cond_Zopp. destruct s; [|reflexivity].
  change (Zneg p) with (- Zpos p). ring.
Qed.

Lemma SFadd_exact (a b : Z) :
  exactInt a -> exactInt b -> exactInt (a + b) ->
  SFadd prec emax (exactFloat a) (exactFloat b) = exactFloat (a + b).
Proof.
  intros Ha Hb Hab.
  assert (Hfin : forall (sx sy : bool) (p q : positive),
    exactInt (if sx then Zneg p else Zpos p) ->
    exactInt (if sy then Zneg q else Zpos q) ->
    exactInt ((if sx then Zneg p else Zpos p)
              + (if sy then Zneg q else Zpos q)) ->
    SFadd prec emax (S754_finite sx (exactMantissa p) (exactExponent p))
      (S754_finite sy (exactMantissa q) (exactExponent q))
    = exactFloat ((if sx then Zneg p else Zpos p)
                  + (if sy then Zneg q else Zpos q))).
  { intros sx sy p q Hp Hq Hpq.
    pose proof (exactInt_pos sx p Hp) as Hp'.
    pose proof (exactInt_pos sy q Hq) as Hq'.
    pose proof (digits2_pos_bound p Hp') as Hdp.
    pose proof (digits2_pos_bound q Hq') as Hdq.
    unfold SFadd.
    set (ez := Z.min (exactExponent p) (exactExponent q)).
    assert (Hez : ez <= exactExponent p /\ ez <= exactExponent q /\ ez <= 0)
      by (unfold ez, exactExponent; lia).
    rewrite !exact_aligned by (lia || assumption).
    rewrite !cond_Zopp_signed, <- Z.mul_add_distr_r.
    apply binary_normalize_scaled; [assumption | lia]. }
  destruct a as [|p|p], b as [|q|q]; try reflexivity.
  - apply (Hfin false false p q); assumption.
  - apply (Hfin false true p q); assumption.
  - apply (Hfin true false p q); assumption.
  - apply (Hfin true true p q); assumption.
Qed.

Lemma SFsub_exact (a b : Z) :
  exactInt a -> exactInt b -> exactInt (a - b) ->
  SFsub prec emax (exactFloat a) (exactFloat b) = exactFloat (a - b).
Proof.
  intros Ha Hb Hab.
  assert (Hfin : forall (sx sy : bool) (p q : positive),
    exactInt (if sx then Zneg p else Zpos p) ->
    exactInt (if sy then Zneg q else Zpos q) ->
    exactInt ((if sx then Zneg p else Zpos p)
              - (if sy then Zneg q else Zpos q)) ->
    SFsub prec emax (S754_finite sx (exactMantissa p) (exactExponent p))
      (S754_finite sy (exactMantissa q) (exactExponent q))
    = exactFloat ((if sx then Zneg p else Zpos p)
                  - (if sy then Zneg q else Zpos q))).
  { intros sx sy p q Hp Hq Hpq.
    pose proof (exactInt_pos sx p Hp) as Hp'.
    pose proof (exactInt_pos sy q Hq) as Hq'.
    unfold SFsub.
    set (ez := Z.min (exactExponent p) (exactExponent q)).
    assert (Hez : ez <= exactExponent p /\ ez <= exactExponent q /\ ez <= 0).
    { pose proof (digits2_pos_bound p Hp'). pose proof (digits2_pos_bound q Hq').
      unfold ez, exactExponent; lia. }
    rewrite !exact_aligned by (lia || assumption).
    rewrite !cond_Zopp_signed, <- Z.mul_sub_distr_r.
    apply binary_normalize_scaled; [assumption | lia]. }
  destruct a as [|p|p], b as [|q|q]; try reflexivity.
  - apply (Hfin false false p q); assumption.
  - apply (Hfin false true p q); assumption.
  - apply (Hfin true false p q); assumption.
  - apply (Hfin true true p q); assumption.
Qed.

Lemma digits2_pos_le (p q : positive) :
  (p <= q)%positive -> (digits2_pos p <= digits2_pos q)%positive.
Proof.
  intros Hpq.
  destruct (Pos.leb_spec (digits2_pos p) (digits2_pos q)) as [|Hlt];
    [assumption|].
  apply digits2_pos_lt in Hlt. lia.
Qed.

Lemma SFmul_exact (a b : Z) :
  exactInt a -> exactInt b -> exactInt (a * b) -> a * b <> 0 ->
  SFmul prec emax (exactFloat a) (exactFloat b) = exactFloat (a * b).
Proof.
  intros Ha Hb Hab Hnz.
  assert (Hfin : forall (sx sy : bool) (p q : positive),
    Zpos p < 2 ^ 53 -> Zpos q < 2 ^ 53 -> Zpos (p * q) < 2 ^ 53 ->
    SFmul prec emax (S754_finite sx (exactMantissa p) (exactExponent p))
      (S754_finite sy (exactMantissa q) (exactExponent q))
    = S754_finite (xorb sx sy) (exactMantissa (p * q))
        (exactExponent (p * q))).
  { intros sx sy p q Hp Hq Hpq.
    pose proof (digits2_pos_bound p Hp) as Hdp.
    pose proof (digits2_pos_bound q Hq) as Hdq.
    assert (Hle : (p <= p * q)%positive).
    { (rewrite <- (Pos.mul_1_r p) at 1; apply Pos.mul_le_mono_l; lia). }
    pose proof (digits2_pos_le p (p * q) Hle) as Hmono.
    unfold SFmul.
    (apply binary_round_aux_exact; [assumption | unfold exactExponent; lia |]).
    (rewrite Pos2Z.inj_mul, !exactMantissa_value by assumption).
    replace (- (exactExponent p + exactExponent q))
      with (- exactExponent p + - exactExponent q) by lia.
    (rewrite pow2_split by (unfold exactExponent; lia)). rewrite Pos2Z.inj_mul. ring. }
  destruct a as [|p|p], b as [|q|q];
    try (exfalso; apply Hnz; reflexivity);
    unfold exactInt in Ha, Hb, Hab;
    change (Z.abs (Zpos p)) with (Zpos p) in Ha;
    change (Z.abs (Zneg p)) with (Zpos p) in Ha;
    change (Z.abs (Zpos q)) with (Zpos q) in Hb;
    change (Z.abs (Zneg q)) with (Zpos q) in Hb;
    cbn [Z.mul Z.abs] in Hab;
    cbn [exactFloat Z.mul];
    apply Hfin; assumption.
Qed.

Lemma float64_add_exact (a b : Z) :
  exactInt a -> exactInt b -> exactInt (a + b) ->
  (float64_of_Z a + float64_of_Z b)%float = float64_of_Z (a + b).
Proof.
  intros Ha Hb Hab.
  rewrite <- (SF2Prim_Prim2SF (float64_of_Z a + float64_of_Z b)).
  rewrite add_spec, !Prim2SF_float64_of_Z by assumption.
  unfold SF64add. rewrite SFadd_exact by assumption.
  unfold float64_of_Z. now rewrite binary_normalize_exact.
Qed.

Lemma float64_sub_exact (a b : Z) :
  exactInt a -> exactInt b -> exactInt (a - b) ->
  (float64_of_Z a - float64_of_Z b)%float = float64_of_Z (a - b).
Proof.
  intros Ha Hb Hab.
  rewrite <- (SF2Prim_Prim2SF (float64_of_Z a - float64_of_Z b)).
  rewrite sub_spec, !Prim2SF_float64_of_Z by assumption.
  unfold SF64sub. rewrite SFsub_exact by assumption.
  unfold float64_of_Z. now rewrite binary_normalize_exact.
Qed.

Lemma float64_mul_exact (a b : Z) :
  exactInt a -> exactInt b -> exactInt (a * b) -> a * b <> 0 ->
  (float64_of_Z a * float64_of_Z b)%float = float64_of_Z (a * b).
Proof.
  intros Ha Hb Hab Hnz.
  rewrite <- (SF2Prim_Prim2SF (float64_of_Z a * float64_of_Z b)).
  rewrite mul_spec, !Prim2SF_float64_of_Z by assumption.
  unfold SF64mul. rewrite SFmul_exact by assumption.
  unfold float64_of_Z. now rewrite binary_normalize_exact.
Qed.

Lemma crossResults_ints (op : value -> value -> value * error)
    (f : Z -> Z -> Z) (A B : list Z) :
  (forall a b, In a A -> In b B ->
     op (int a) (int b) = (OfFloat64 (float64_of_Z (f a b)), None)) ->
  crossResults op (ints A) (ints B)
  = map (fun p => OfFloat64 (float64_of_Z (f (fst p) (snd p))))
      (list_prod A B).
Proof.
  intros Hop. rewrite crossResults_nested. unfold ints.
  induction A as [|a A IH]; simpl; [reflexivity|].
  rewrite map_app, IH by (intros; apply Hop; [now right | assumption]).
  f_equal.
  assert (Ha : forall b, In b B ->
            op (int a) (int b) = (OfFloat64 (float64_of_Z (f a b)), None))
    by (intros; apply Hop; [now left | assumption]).
  clear IH Hop. rewrite map_map. cbn [fst snd].
  induction B as [|b B IHB]; simpl; [reflexivity|].
  unfold successful at 1. cbn [fst snd].
  rewrite (Ha b (or_introl eq_refl)). simpl.
  f_equal. apply IHB. intros b' Hb'. apply Ha. now right.
Qed.

(** On Go ints below 2^53 in magnitude, Add, Subtract and Multiply compute
    the integer sums, differences and products exactly (as float64
    values), pair by pair in a-major order, provided each result is again
    below 2^53 and, for Multiply, not zero. *)
Theorem integer_arithmetic_exact (t1 t2 : SuperpositionType)
    (A B : list Z) :
  Forall exactInt A -> Forall exactInt B ->
  ((forall a b, In a A -> In b B -> exactInt (a + b)) ->
   Eigenstates (Add (sp (mkSuperposition (ints A) t1))
                  (sp (mkSuperposition (ints B) t2)))
   = map (fun p => OfFloat64 (float64_of_Z (fst p + snd p)))
       (list_prod A B))
  /\ ((forall a b, In a A -> In b B -> exactInt (a - b)) ->
      Eigenstates (Subtract (sp (mkSuperposition (ints A) t1))
                     (sp (mkSuperposition (ints B) t2)))
      = map (fun p => OfFloat64 (float64_of_Z (fst p - snd p)))
          (list_prod A B))
  /\ ((forall a b, In a A -> In b B -> exactInt (a * b) /\ a * b <> 0) ->
      Eigenstates (Multiply (sp (mkSuperposition (ints A) t1))
                     (sp (mkSuperposition (ints B) t2)))
      = map (fun p => OfFloat64 (float64_of_Z (fst p * snd p)))
          (list_prod A B)).
Proof.
  intros HA HB.
  rewrite Forall_forall in HA, HB.
  split; [|split]; intros Hres.
  - change (Add ?x ?y) with (arithmetic OpAdd x y).
    rewrite arithmetic_values.
    apply (crossResults_ints addValues Z.add). intros a b Ha Hb.
    rewrite (arithmeticValues_unfold OpAdd).
    change (excluded OpAdd (int a) (int b)) with false. cbv iota.
    change (coerced (int a)) with (float64_of_Z a).
    change (coerced (int b)) with (float64_of_Z b).
    rewrite float64_add_exact; auto.
  - change (Subtract ?x ?y) with (arithmetic OpSubtract x y).
    rewrite arithmetic_values.
    apply (crossResults_ints subValues Z.sub). intros a b Ha Hb.
    rewrite (arithmeticValues_unfold OpSubtract).
    change (excluded OpSubtract (int a) (int b)) with false. cbv iota.
    change (coerced (int a)) with (float64_of_Z a).
    change (coerced (int b)) with (float64_of_Z b).
    rewrite float64_sub_exact; auto.
  - change (Multiply ?x ?y) with (arithmetic OpMultiply x y).
    rewrite arithmetic_values.
    apply (crossResults_ints mulValues Z.mul). intros a b Ha Hb.
    rewrite (arithmeticValues_unfold OpMultiply).
    change (excluded OpMultiply (int a) (int b)) with false. cbv iota.
    change (coerced (int a)) with (float64_of_Z a).
    change (coerced (int b)) with (float64_of_Z b).
    destruct (Hres a b Ha Hb) as [Hex Hnz].
    rewrite float64_mul_exact; auto.
Qed.

Lemma integer_arithmetic_exact_witness :
  Eigenstates (Multiply (sp (mkSuperposition (ints [1; 2; 3]) Disjunctive))
                 (sp (mkSuperposition (ints [4; 5]) Conjunctive)))
  = map (fun p => OfFloat64 (float64_of_Z (fst p * snd p)))
      (list_prod [1; 2; 3] [4; 5]).
Proof.
  refine (proj2 (proj2 (integer_arithmetic_exact Disjunctive Conjunctive
                          [1; 2; 3] [4; 5] _ _)) _).
  - repeat constructor.
  - repeat constructor.
  - intros a b Ha Hb. simpl in Ha, Hb.
    destruct Ha as [<-|[<-|[<-|[]]]]; destruct Hb as [<-|[<-|[]]];
      (split; [reflexivity | discriminate]).
Defined.

(** ** Numeric equality *)

Lemma SFeqb_refl (x : spec_float) : x <> S754_nan -> SFeqb x x = true.
Proof.
  intros Hx. unfold SFeqb.
  destruct x as [s|s| |s m e]; try (now elim Hx); simpl.
  - reflexivity.
  - now destruct s.
  - destruct s; rewrite Z.compare_refl;
      fold (Pos.compare m m); now rewrite Pos.compare_refl.
Qed.

Lemma float_eqb_left_refl (f g : float) :
  (f =? g)%float = true -> (f =? f)%float = true.
Proof.
  rewrite !eqb_spec. intros H. apply SFeqb_refl. intros Hnan.
  rewrite Hnan in H. discriminate.
Qed.

Lemma numericallyEqual_left_refl (a b : value) :
  numericallyEqual a b = true -> numericallyEqual a a = true.
Proof.
  unfold numericallyEqual.
  destruct (coerces a); [|discriminate].
  destruct (coerces b); [|discriminate]. simpl.
  apply float_eqb_left_refl.
Qed.

(** EqualTo of a superposition with Any of its own values keeps a value
    exactly when it coerces to a number other than NaN: text and other
    non-numeric values and NaN are dropped, everything else stays, in
    order. *)
Theorem EqualTo_self (t : SuperpositionType) (A : list value) :
  Eigenstates (EqualTo (sp (mkSuperposition A t)) (sp (Any A)))
  = filter (fun a => coerces a && negb (is_nan (coerced a))) A.
Proof.
  change (EqualTo ?x ?y) with (filtering OpEqualTo x y).
  rewrite filtering_values.
  change (operandValues (sp (mkSuperposition A t))) with A.
  change (operandValues (sp (Any A))) with A.
  change (operandMode (sp (Any A))) with Disjunctive.
  change (filteringValues OpEqualTo) with equalToValues.
  apply filter_ext_in. intros a Ha.
  rewrite compareInner_disjunctive, orb_false_r.
  replace (existsb (holds equalToValues a) A)
    with (existsb (numericallyEqual a) A).
  2:{ clear Ha. induction A as [|b A IH]; cbn [existsb]; [reflexivity|].
      now rewrite IH, holds_equalTo. }
  assert (Hself : numericallyEqual a a
                  = coerces a && negb (is_nan (coerced a))).
  { unfold numericallyEqual, is_nan. rewrite negb_involutive.
    now destruct (coerces a). }
  rewrite <- Hself.
  destruct (numericallyEqual a a) eqn:Haa.
  - apply existsb_exists. exists a. now split.
  - destruct (existsb (numericallyEqual a) A) eqn:Hex; [|reflexivity].
    apply existsb_exists in Hex. destruct Hex as [b [_ Hab]].
    apply numericallyEqual_left_refl in Hab. congruence.
Qed.

(** Coercion forgets the Go type of a number: an int or uint of any width
    holding n below 2^53 and the float64 n all coerce to the same number,
    keeping their own kind, so that EqualTo treats them as equal. *)
Theorem numeric_equality_across_types (w w' : IntSize) (n : Z) :
  exactInt n ->
  getNumericValue (OfInt w n) = (float64_of_Z n, reflect.IntKind w)
  /\ getNumericValue (OfUint w' n) = (float64_of_Z n, reflect.UintKind w')
  /\ getNumericValue (OfFloat64 (float64_of_Z n))
     = (float64_of_Z n, reflect.Float64)
  /\ equalToValues (OfInt w n) (OfUint w' n) = (true, None)
  /\ equalToValues (OfUint w' n) (OfFloat64 (float64_of_Z n)) = (true, None)
  /\ Eigenstates (EqualTo (OfInt w n)
                    (sp (Any [OfUint w' n; OfFloat64 (float64_of_Z n)])))
     = [OfInt w n].
Proof.
  intros Hn.
  pose proof (float64_of_Z_eqb n n Hn Hn) as Heq.
  rewrite Z.eqb_refl in Heq.
  assert (Hi : getNumericValue (OfInt w n)
               = (float64_of_Z n, reflect.IntKind w)) by now destruct w.
  assert (Hu : getNumericValue (OfUint w' n)
               = (float64_of_Z n, reflect.UintKind w')) by now destruct w'.
  assert (H1 : equalToValues (OfInt w n) (OfUint w' n) = (true, None)).
  { unfold equalToValues, performComparison. rewrite Hi, Hu.
    destruct w, w'; cbn [reflect.Kind_eqb reflect.IntKind reflect.UintKind
                           orb]; now rewrite Heq. }
  assert (H2 : equalToValues (OfUint w' n) (OfFloat64 (float64_of_Z n))
               = (true, None)).
  { unfold equalToValues, performComparison. rewrite Hu.
    change (getNumericValue (OfFloat64 (float64_of_Z n)))
      with (float64_of_Z n, reflect.Float64).
    destruct w'; cbn [reflect.Kind_eqb reflect.UintKind orb];
      now rewrite Heq. }
  repeat split; try assumption.
  change (EqualTo ?x ?y) with (filtering OpEqualTo x y).
  rewrite filtering_values.
  change (operandValues (OfInt w n)) with [OfInt w n].
  change (operandValues (sp (Any ?l))) with l.
  change (filteringValues OpEqualTo) with equalToValues.
  cbn [filter]. rewrite compareInner_stops; [reflexivity|].
  unfold holds, verdict. now rewrite H1.
Qed.

Lemma numeric_equality_across_types_witness :
  equalToValues (OfInt Size8 3) (OfUint Size64 3) = (true, None).
Proof.
  refine (proj1 (proj2 (proj2 (proj2
            (numeric_equality_across_types Size8 Size64 3 _))))).
  reflexivity.
Defined.
